(** * French property investment analyzer: the calculation engine

    A shallow embedding of [FrenchPropertyInvestmentCalculator]
    (src/python/src/french_mortgage.py) and the properties of its
    amortization, year-by-year projection and summary reduction.

    The Python code computes on [float] and [int].  The embedding is
    written once, over an interface [Arith] of the arithmetic the code
    uses, and is read at two instances:

    - [Qc], canonical rationals: exact arithmetic, the reading under which
      the algebraic properties of the engine are proved;
    - [float], IEEE 754 binary64 ([PrimFloat]): the arithmetic Python
      really performs, used to evaluate the engine on concrete inputs.

    The exact reading leaves rounding, overflow and NaN out; where a
    property depends on them it is evaluated at [float].  Python integers
    are [Z]; exceptions are the [Raise] results of an error monad. *)

From Stdlib Require Import ZArith QArith Qcanon Lia Lra Psatz List String Bool.
From Stdlib Require Import Floats.PrimFloat Numbers.Cyclic.Int63.Uint63.
From Stdlib Require DecimalString.
Import ListNotations.

Set Implicit Arguments.

(** ** Exceptions and the error monad *)

Inductive exn : Type :=
| ValueError (msg : string)
| ZeroDivisionError
| OverflowError.

Inductive result (A : Type) : Type :=
| Ok (a : A)
| Raise (e : exn).

Arguments Ok {A} a.
Arguments Raise {A} e.

Definition bind {A B : Type} (m : result A) (k : A -> result B) : result B :=
  match m with
  | Ok a => k a
  | Raise e => Raise e
  end.

Declare Scope result_scope.
Delimit Scope result_scope with result.
Notation "x <- m ;; k" := (bind m (fun x => k))
  (at level 61, m at next level, right associativity) : result_scope.
Notation "m ;;; k" := (bind m (fun _ => k))
  (at level 61, right associativity) : result_scope.
Open Scope result_scope.

(** [raise_if c msg]: [if c: raise ValueError(msg)]. *)
Definition raise_if (c : bool) (msg : string) : result unit :=
  if c then Raise (ValueError msg) else Ok tt.

(** ** The arithmetic the code uses *)

Class Arith (num : Type) : Type := {
  of_int : Z -> num;                 (* an [int] operand of a float operation *)
  lit : Q -> num;                    (* a decimal float literal *)
  add : num -> num -> num;
  sub : num -> num -> num;
  mul : num -> num -> num;
  neg : num -> num;
  div : num -> num -> result num;    (* [/]: ZeroDivisionError on a zero divisor *)
  pow : num -> Z -> result num;      (* [float ** int] *)
  le : num -> num -> bool;
  lt : num -> num -> bool;
  eqb : num -> num -> bool
}.

Declare Scope num_scope.
Delimit Scope num_scope with num.
Notation "x + y" := (add x y) : num_scope.
Notation "x - y" := (sub x y) : num_scope.
Notation "x * y" := (mul x y) : num_scope.
Notation "- x" := (neg x) : num_scope.
Notation "x / y" := (div x y) : num_scope.
Notation "x ** n" := (pow x n) (at level 30, right associativity) : num_scope.
Notation "x <=? y" := (le x y) : num_scope.
Notation "x <? y" := (lt x y) : num_scope.
Notation "x =? y" := (eqb x y) : num_scope.

(** ** The dataclasses *)

Module PropertyInvestmentInput.
Record t (num : Type) : Type := mk {
  property_price : num;
  down_payment : num;
  interest_rate : num;
  loan_term_years : Z;
  monthly_rent : num;
  holding_period_years : Z;
  property_tax_annual : num;
  hoa_monthly : num;
  maintenance_percent : num;
  management_fee_percent : num;
  vacancy_rate : num;
  rent_increase_annual : num
}.
End PropertyInvestmentInput.

Module MortgageDetails.
Record t (num : Type) : Type := mk {
  monthly_payment : num;
  total_interest : num;
  total_payments : num
}.
End MortgageDetails.

Module YearlyExpenses.
Record t (num : Type) : Type := mk {
  mortgage : num;
  property_tax : num;
  hoa : num;
  maintenance : num;
  management : num;
  insurance : num;
  total : num
}.
End YearlyExpenses.

Module YearlyProjection.
Record t (num : Type) : Type := mk {
  year : Z;
  rental_income : num;
  expenses : YearlyExpenses.t num;
  net_cash_flow : num;
  cumulative_cash_flow : num;
  principal_paydown : num;
  total_equity : num;
  remaining_balance : num
}.
End YearlyProjection.

Module InvestmentSummary.
Record t (num : Type) : Type := mk {
  initial_investment : num;
  loan_amount : num;
  total_rental_income : num;
  total_expenses : num;
  total_cash_flow : num;
  total_principal_paydown : num;
  final_equity : num;
  net_profit : num;
  roi : num;
  avg_cash_on_cash_return : num;
  break_even_year : option Z
}.
End InvestmentSummary.

Module PropertyInvestmentResult.
Record t (num : Type) : Type := mk {
  input : PropertyInvestmentInput.t num;
  mortgage : MortgageDetails.t num;
  yearly_projections : list (YearlyProjection.t num);
  summary : InvestmentSummary.t num
}.
End PropertyInvestmentResult.

(** The variables the year loop of [analyze] carries from one iteration
    to the next. *)
Module Loop.
Record t (num : Type) : Type := mk {
  yearly_projections : list (YearlyProjection.t num);
  cumulative_cash_flow : num;
  remaining_balance : num;
  break_even_year : option Z
}.
End Loop.

(** [range(lo, hi)] *)
Definition range (lo hi : Z) : list Z :=
  map (fun i => (lo + Z.of_nat i)%Z) (seq 0 (Z.to_nat (hi - lo))).

(** ** The calculator *)

Module FrenchPropertyInvestmentCalculator.
Section Calculator.
Context {num : Type} {A : Arith num}.
Local Open Scope num_scope.

Import PropertyInvestmentInput.

Definition _validate_input (input_data : PropertyInvestmentInput.t num) : result unit :=
  raise_if (property_price input_data <=? of_int 0)
    "Property price must be positive" ;;;
  raise_if (down_payment input_data <? of_int 0)
    "Down payment cannot be negative" ;;;
  raise_if (property_price input_data <=? down_payment input_data)
    "Down payment must be less than property price" ;;;
  raise_if (interest_rate input_data <=? of_int 0)
    "Interest rate must be positive" ;;;
  raise_if (loan_term_years input_data <=? 0)%Z
    "Loan term must be positive" ;;;
  raise_if (monthly_rent input_data <? of_int 0)
    "Monthly rent cannot be negative" ;;;
  raise_if (holding_period_years input_data <=? 0)%Z
    "Holding period must be positive" ;;;
  raise_if (property_tax_annual input_data <? of_int 0)
    "Property tax cannot be negative" ;;;
  raise_if (hoa_monthly input_data <? of_int 0)
    "HOA fees cannot be negative" ;;;
  raise_if (maintenance_percent input_data <? of_int 0)
    "Maintenance percentage cannot be negative" ;;;
  raise_if (management_fee_percent input_data <? of_int 0)
    "Management fee percentage cannot be negative" ;;;
  raise_if (negb ((of_int 0 <=? vacancy_rate input_data)
                  && (vacancy_rate input_data <=? of_int 100)))
    "Vacancy rate must be between 0 and 100" ;;;
  raise_if (rent_increase_annual input_data <=? of_int (-100))
    "Rent increase must be greater than -100%".

Definition _calculate_monthly_payment
  (principal monthly_rate : num) (num_payments : Z) : result num :=
  if monthly_rate =? lit 0.0 then principal / of_int num_payments
  else
    p1 <- (of_int 1 + monthly_rate) ** num_payments ;;
    let rate_times_one_plus_rate_pow_n := monthly_rate * p1 in
    p2 <- (of_int 1 + monthly_rate) ** num_payments ;;
    let one_plus_rate_pow_n_minus_one := p2 - of_int 1 in
    (principal * rate_times_one_plus_rate_pow_n) / one_plus_rate_pow_n_minus_one.

(** [for month in range(1, 13)]: [months] iterations are left; the loop
    variables are [balance] and [yearly_principal]. *)
Fixpoint month_loop (months : nat) (monthly_rate monthly_payment : num)
  (balance yearly_principal : num) : num :=
  match months with
  | O => yearly_principal
  | S months' =>
    if balance <=? of_int 0 then yearly_principal
    else
      let interest_payment := balance * monthly_rate in
      let principal_payment := monthly_payment - interest_payment in
      let yearly_principal := yearly_principal + principal_payment in
      let balance := balance - principal_payment in
      month_loop months' monthly_rate monthly_payment balance yearly_principal
  end.

Definition _calculate_yearly_principal_paydown
  (starting_balance monthly_rate monthly_payment : num)
  (current_year loan_term_years : Z) : num :=
  if (loan_term_years <? current_year)%Z then lit 0.0
  else month_loop 12 monthly_rate monthly_payment starting_balance (lit 0.0).

(** The body of [for year in range(1, holding_period_years + 1)]. *)
Definition year_body (input_data : PropertyInvestmentInput.t num)
  (loan_amount monthly_rate total_monthly_mortgage : num)
  (st : Loop.t num) (year : Z) : result (Loop.t num) :=
  g <- rent_increase_annual input_data / lit 100.0 ;;
  rent_multiplier <- (of_int 1 + g) ** (year - 1) ;;
  let base_monthly_rent := monthly_rent input_data * rent_multiplier in
  v <- vacancy_rate input_data / lit 100.0 ;;
  let effective_monthly_rent := base_monthly_rent * (of_int 1 - v) in
  let annual_rental_income := effective_monthly_rent * of_int 12 in
  let annual_mortgage := total_monthly_mortgage * of_int 12 in
  let annual_property_tax := property_tax_annual input_data in
  let annual_hoa := hoa_monthly input_data * of_int 12 in
  mp <- maintenance_percent input_data / lit 100.0 ;;
  let annual_maintenance := property_price input_data * mp in
  fp <- management_fee_percent input_data / lit 100.0 ;;
  let annual_management := base_monthly_rent * of_int 12 * fp in
  let annual_insurance := loan_amount * lit 0.004 in
  let total_expenses :=
    annual_mortgage + annual_property_tax + annual_hoa
    + annual_maintenance + annual_management in
  let principal_paydown :=
    _calculate_yearly_principal_paydown
      (Loop.remaining_balance st) monthly_rate total_monthly_mortgage
      year (loan_term_years input_data) in
  let remaining_balance := Loop.remaining_balance st - principal_paydown in
  let net_cash_flow := annual_rental_income - total_expenses in
  let cumulative_cash_flow := Loop.cumulative_cash_flow st + net_cash_flow in
  let break_even_year :=
    match Loop.break_even_year st with
    | None => if of_int 0 <=? cumulative_cash_flow then Some year else None
    | Some y => Some y
    end in
  let total_equity :=
    down_payment input_data + (loan_amount - remaining_balance) in
  Ok (Loop.mk
        (Loop.yearly_projections st ++
         [YearlyProjection.mk year annual_rental_income
            (YearlyExpenses.mk annual_mortgage annual_property_tax annual_hoa
               annual_maintenance annual_management annual_insurance
               total_expenses)
            net_cash_flow cumulative_cash_flow principal_paydown
            total_equity remaining_balance])
        cumulative_cash_flow remaining_balance break_even_year).

Fixpoint year_loop (input_data : PropertyInvestmentInput.t num)
  (loan_amount monthly_rate total_monthly_mortgage : num)
  (years : list Z) (st : Loop.t num) : result (Loop.t num) :=
  match years with
  | [] => Ok st
  | year :: years' =>
    st' <- year_body input_data loan_amount monthly_rate
             total_monthly_mortgage st year ;;
    year_loop input_data loan_amount monthly_rate total_monthly_mortgage
      years' st'
  end.

(** [sum(...)]: Python's [sum] starts from the integer 0. *)
Definition sum (l : list num) : num := fold_left add l (of_int 0).

Definition analyze (input_data : PropertyInvestmentInput.t num)
  : result (PropertyInvestmentResult.t num) :=
  _validate_input input_data ;;;
  let loan_amount := property_price input_data - down_payment input_data in
  r100 <- interest_rate input_data / lit 100.0 ;;
  monthly_rate <- r100 / lit 12.0 ;;
  let num_payments := (loan_term_years input_data * 12)%Z in
  monthly_mortgage_payment <-
    _calculate_monthly_payment loan_amount monthly_rate num_payments ;;
  monthly_life_insurance <- (loan_amount * lit 0.004) / lit 12.0 ;;
  let total_monthly_mortgage :=
    monthly_mortgage_payment + monthly_life_insurance in
  let total_mortgage_payments := total_monthly_mortgage * of_int num_payments in
  let total_interest := total_mortgage_payments - loan_amount in
  let mortgage_details :=
    MortgageDetails.mk total_monthly_mortgage total_interest
      total_mortgage_payments in
  let arrangement_fee := loan_amount * lit 0.01 in
  let registration_fee := loan_amount * lit 0.015 in
  let survey_fee := lit 750.0 in
  let initial_investment :=
    down_payment input_data + arrangement_fee + registration_fee + survey_fee in
  st <- year_loop input_data loan_amount monthly_rate total_monthly_mortgage
          (range 1 (holding_period_years input_data + 1))
          (Loop.mk [] (- initial_investment) loan_amount None) ;;
  let yearly_projections := Loop.yearly_projections st in
  let remaining_balance := Loop.remaining_balance st in
  let total_rental_income :=
    sum (map (@YearlyProjection.rental_income num) yearly_projections) in
  let total_expenses_sum :=
    sum (map (fun p => YearlyExpenses.total (YearlyProjection.expenses p))
           yearly_projections) in
  let total_cash_flow := total_rental_income - total_expenses_sum in
  let total_principal_paydown := loan_amount - remaining_balance in
  let final_equity := down_payment input_data + total_principal_paydown in
  let net_profit := total_cash_flow + final_equity - initial_investment in
  q <- net_profit / initial_investment ;;
  let roi := q * lit 100.0 in
  c1 <- total_cash_flow / of_int (holding_period_years input_data) ;;
  c2 <- c1 / initial_investment ;;
  let avg_cash_on_cash_return := c2 * lit 100.0 in
  let summary :=
    InvestmentSummary.mk initial_investment loan_amount total_rental_income
      total_expenses_sum total_cash_flow total_principal_paydown final_equity
      net_profit roi avg_cash_on_cash_return (Loop.break_even_year st) in
  Ok (PropertyInvestmentResult.mk input_data mortgage_details
        yearly_projections summary).

End Calculator.
End FrenchPropertyInvestmentCalculator.

(** ** Exact arithmetic: canonical rationals *)

Module Exact.
Local Open Scope Qc_scope.

Definition Qc_div (x y : Qc) : result Qc :=
  if Qc_eq_bool y 0 then Raise ZeroDivisionError else Ok (x / y).

(** [x ** n] for an integer [n]; a zero base with a negative exponent
    raises ZeroDivisionError. *)
Definition Qc_pow (x : Qc) (n : Z) : result Qc :=
  match n with
  | Z0 => Ok 1
  | Zpos p => Ok (x ^ Pos.to_nat p)
  | Zneg p =>
    if Qc_eq_bool x 0 then Raise ZeroDivisionError
    else Ok (/ (x ^ Pos.to_nat p))
  end.

#[export] Instance Qc_arith : Arith Qc := {|
  of_int z := Q2Qc (inject_Z z);
  lit q := Q2Qc q;
  add := Qcplus;
  sub := Qcminus;
  mul := Qcmult;
  neg := Qcopp;
  div := Qc_div;
  pow := Qc_pow;
  le x y := Qle_bool x y;
  lt x y := negb (Qle_bool y x);
  eqb := Qc_eq_bool
|}.

End Exact.

(** ** IEEE 754 binary64: Python's [float] *)

Module Float64.
Local Open Scope float_scope.

(** An [int] converted to [float], for integers below [2^63] in absolute
    value. *)
Definition float_of_int (z : Z) : float :=
  match z with
  | Zneg p => PrimFloat.opp (PrimFloat.of_uint63 (Uint63.of_Z (Zpos p)))
  | _ => PrimFloat.of_uint63 (Uint63.of_Z z)
  end.

(** A decimal literal [m / 10^k] with [m] and [10^k] below [2^53] is the
    correctly rounded quotient of two exactly represented integers. *)
Definition float_lit (q : Q) : float :=
  float_of_int (Qnum q) / float_of_int (Zpos (Qden q)).

Definition float_div (x y : float) : result float :=
  if PrimFloat.eqb y 0 then Raise ZeroDivisionError else Ok (x / y).

(** [float.__pow__] with an integer exponent.  CPython returns 1.0 for a
    zero exponent and for the base 1.0, raises ZeroDivisionError for a
    zero base with a negative exponent and OverflowError when the result
    of a finite base overflows; otherwise it calls the C library's [pow],
    rendered here by repeated multiplication. *)
Definition float_pow (x : float) (n : Z) : result float :=
  match n with
  | Z0 => Ok 1
  | Zpos p =>
    if PrimFloat.eqb x 1 then Ok 1
    else
      let r := Pos.iter (fun a => a * x) 1 p in
      if PrimFloat.is_infinity r && negb (PrimFloat.is_infinity x)
      then Raise OverflowError else Ok r
  | Zneg p =>
    if PrimFloat.eqb x 1 then Ok 1
    else if PrimFloat.eqb x 0 then Raise ZeroDivisionError
    else
      let r := 1 / Pos.iter (fun a => a * x) 1 p in
      if PrimFloat.is_infinity r && negb (PrimFloat.is_infinity x)
      then Raise OverflowError else Ok r
  end.

#[export] Instance float_arith : Arith float := {|
  of_int := float_of_int;
  lit := float_lit;
  add := PrimFloat.add;
  sub := PrimFloat.sub;
  mul := PrimFloat.mul;
  neg := PrimFloat.opp;
  div := float_div;
  pow := float_pow;
  le := PrimFloat.leb;
  lt := PrimFloat.ltb;
  eqb := PrimFloat.eqb
|}.

End Float64.

(** * The exact reading: definitions

    The functions above are read at [Qc].  This part defines what the
    properties are stated with: the balance recurrence of a loan, the
    invariants of a scenario, the values [analyze] computes on a validated
    scenario, the month-by-month replay as a relation, and the scenarios
    the properties are evaluated on. *)

Unset Implicit Arguments.

Import FrenchPropertyInvestmentCalculator.
Import PropertyInvestmentInput.
Import Exact.
Import Float64.
Local Open Scope Qc_scope.

(** ** The balance of a loan *)

(** The balance left of [balance] after [k] monthly payments of [payment]:
    each month the interest [balance * rate] is charged and the rest of
    the payment retires principal. *)
Fixpoint balance_after (rate payment : Qc) (k : nat) (balance : Qc) : Qc :=
  match k with
  | O => balance
  | S k' => balance_after rate payment k' (balance - (payment - balance * rate))
  end.

(** ** The invariants of a scenario *)

(** The fields of a scenario, in the order of their invariants. *)
Inductive field_name : Type :=
| PropertyPrice | DownPayment | InterestRate | LoanTerm | MonthlyRent
| HoldingPeriod | PropertyTax | HoaFees | MaintenancePercent
| ManagementFeePercent | VacancyRate | RentIncrease.



(** The invariants of a scenario, as the data model lists them: price > 0;
    0 <= down payment < price; interest rate > 0; loan term > 0; rent >= 0;
    holding period > 0; all fee and tax fields >= 0; 0 <= vacancy rate <=
    100; rent growth > -100. *)
Definition invariant (s : PropertyInvestmentInput.t Qc) (f : field_name) : Prop :=
  match f with
  | PropertyPrice => 0 < property_price s
  | DownPayment => 0 <= down_payment s /\ down_payment s < property_price s
  | InterestRate => 0 < interest_rate s
  | LoanTerm => (0 < loan_term_years s)%Z
  | MonthlyRent => 0 <= monthly_rent s
  | HoldingPeriod => (0 < holding_period_years s)%Z
  | PropertyTax => 0 <= property_tax_annual s
  | HoaFees => 0 <= hoa_monthly s
  | MaintenancePercent => 0 <= maintenance_percent s
  | ManagementFeePercent => 0 <= management_fee_percent s
  | VacancyRate => 0 <= vacancy_rate s /\ vacancy_rate s <= of_int 100
  | RentIncrease => of_int (-100) < rent_increase_annual s
  end.



(** ** The values [analyze] computes on a validated scenario

    The local variables of [analyze], written with the total operations
    of [Qc]; [analyze_Ok] below shows that [analyze] returns them. *)

Definition loan_amount_of (s : PropertyInvestmentInput.t Qc) : Qc :=
  property_price s - down_payment s.

Definition monthly_rate_of (s : PropertyInvestmentInput.t Qc) : Qc :=
  interest_rate s / lit 100.0 / lit 12.0.

Definition num_payments_of (s : PropertyInvestmentInput.t Qc) : Z :=
  (loan_term_years s * 12)%Z.

Definition monthly_mortgage_payment_of (s : PropertyInvestmentInput.t Qc) : Qc :=
  loan_amount_of s
  * (monthly_rate_of s * (1 + monthly_rate_of s) ^ Z.to_nat (num_payments_of s))
  / ((1 + monthly_rate_of s) ^ Z.to_nat (num_payments_of s) - 1).

Definition monthly_life_insurance_of (s : PropertyInvestmentInput.t Qc) : Qc :=
  loan_amount_of s * lit 0.004 / lit 12.0.

Definition total_monthly_mortgage_of (s : PropertyInvestmentInput.t Qc) : Qc :=
  monthly_mortgage_payment_of s + monthly_life_insurance_of s.

Definition initial_investment_of (s : PropertyInvestmentInput.t Qc) : Qc :=
  down_payment s + loan_amount_of s * lit 0.01 + loan_amount_of s * lit 0.015
  + lit 750.0.

(** The record the loop body appends in year [year], from the balance and
    the cumulative cash flow carried into the iteration. *)
Definition year_projection (s : PropertyInvestmentInput.t Qc)
  (balance cumulative : Qc) (year : Z) : YearlyProjection.t Qc :=
  let base_monthly_rent :=
    monthly_rent s
    * (1 + rent_increase_annual s / lit 100.0) ^ Z.to_nat (year - 1) in
  let annual_rental_income :=
    base_monthly_rent * (1 - vacancy_rate s / lit 100.0) * of_int 12 in
  let annual_mortgage := total_monthly_mortgage_of s * of_int 12 in
  let annual_hoa := hoa_monthly s * of_int 12 in
  let annual_maintenance :=
    property_price s * (maintenance_percent s / lit 100.0) in
  let annual_management :=
    base_monthly_rent * of_int 12 * (management_fee_percent s / lit 100.0) in
  let total_expenses :=
    annual_mortgage + property_tax_annual s + annual_hoa
    + annual_maintenance + annual_management in
  let principal_paydown :=
    _calculate_yearly_principal_paydown balance (monthly_rate_of s)
      (total_monthly_mortgage_of s) year (loan_term_years s) in
  let remaining_balance := balance - principal_paydown in
  let net_cash_flow := annual_rental_income - total_expenses in
  YearlyProjection.mk year annual_rental_income
    (YearlyExpenses.mk annual_mortgage (property_tax_annual s) annual_hoa
       annual_maintenance annual_management (loan_amount_of s * lit 0.004)
       total_expenses)
    net_cash_flow (cumulative + net_cash_flow) principal_paydown
    (down_payment s + (loan_amount_of s - remaining_balance))
    remaining_balance.

(** The break-even marker after an iteration. *)
Definition next_break_even (marker : option Z) (cumulative : Qc) (year : Z)
  : option Z :=
  match marker with
  | None => if le 0 cumulative then Some year else None
  | Some y => Some y
  end.

(** One iteration of the year loop on the loop variables. *)
Definition year_step (s : PropertyInvestmentInput.t Qc)
  (st : Loop.t Qc) (year : Z) : Loop.t Qc :=
  let p := year_projection s (Loop.remaining_balance st)
             (Loop.cumulative_cash_flow st) year in
  Loop.mk (Loop.yearly_projections st ++ [p])
    (YearlyProjection.cumulative_cash_flow p)
    (YearlyProjection.remaining_balance p)
    (next_break_even (Loop.break_even_year st)
       (YearlyProjection.cumulative_cash_flow p) year).

(** The loop variables before the first iteration and after the last. *)
Definition initial_state (s : PropertyInvestmentInput.t Qc) : Loop.t Qc :=
  Loop.mk [] (- initial_investment_of s) (loan_amount_of s) None.

Definition final_state (s : PropertyInvestmentInput.t Qc) : Loop.t Qc :=
  fold_left (year_step s) (range 1 (holding_period_years s + 1))
    (initial_state s).

(** The result of [analyze]. *)
Definition analysis (s : PropertyInvestmentInput.t Qc)
  : PropertyInvestmentResult.t Qc :=
  let st := final_state s in
  let total_rental_income :=
    sum (map (@YearlyProjection.rental_income Qc) (Loop.yearly_projections st)) in
  let total_expenses_sum :=
    sum (map (fun p => YearlyExpenses.total (YearlyProjection.expenses p))
           (Loop.yearly_projections st)) in
  let total_cash_flow := total_rental_income - total_expenses_sum in
  let total_principal_paydown := loan_amount_of s - Loop.remaining_balance st in
  let final_equity := down_payment s + total_principal_paydown in
  let net_profit := total_cash_flow + final_equity - initial_investment_of s in
  PropertyInvestmentResult.mk s
    (MortgageDetails.mk (total_monthly_mortgage_of s)
       (total_monthly_mortgage_of s * of_int (num_payments_of s)
        - loan_amount_of s)
       (total_monthly_mortgage_of s * of_int (num_payments_of s)))
    (Loop.yearly_projections st)
    (InvestmentSummary.mk (initial_investment_of s) (loan_amount_of s)
       total_rental_income total_expenses_sum total_cash_flow
       total_principal_paydown final_equity net_profit
       (net_profit / initial_investment_of s * lit 100.0)
       (total_cash_flow / of_int (holding_period_years s)
        / initial_investment_of s * lit 100.0)
       (Loop.break_even_year st)).

(** The records the loop appends over [years], from the balance and the
    cumulative cash flow carried into the first of them. *)
Fixpoint projections_from (s : PropertyInvestmentInput.t Qc) (years : list Z)
  (balance cumulative : Qc) : list (YearlyProjection.t Qc) :=
  match years with
  | [] => []
  | year :: years' =>
    let p := year_projection s balance cumulative year in
    p :: projections_from s years'
           (YearlyProjection.remaining_balance p)
           (YearlyProjection.cumulative_cash_flow p)
  end.

(** The first year whose cumulative cash flow is non-negative. *)
Definition first_crossing (projections : list (YearlyProjection.t Qc)) : option Z :=
  option_map (@YearlyProjection.year Qc)
    (find (fun p => le 0 (YearlyProjection.cumulative_cash_flow p)) projections).

(** A marker that is set is kept; an unset one takes the crossing. *)
Definition marker_or (marker crossing : option Z) : option Z :=
  match marker with
  | Some y => Some y
  | None => crossing
  end.

(** ** The replay of a year *)

(** The month-by-month replay as the design describes it: with [months]
    steps left, a step charges the interest [balance * rate], retires
    [outlay - interest] of principal and adds it to the principal [paid]
    so far; no further month is processed once the balance is zero or
    below. *)
Inductive monthly_steps (rate outlay : Qc) : nat -> Qc -> Qc -> Qc -> Prop :=
| steps_done (balance paid : Qc) :
    monthly_steps rate outlay 0 balance paid paid
| steps_stop (months : nat) (balance paid : Qc) :
    balance <= 0 ->
    monthly_steps rate outlay (S months) balance paid paid
| steps_month (months : nat) (balance paid total : Qc) :
    0 < balance ->
    monthly_steps rate outlay months
      (balance - (outlay - balance * rate))
      (paid + (outlay - balance * rate)) total ->
    monthly_steps rate outlay (S months) balance paid total.

(** The interest the replay of a year charges: the sum of the
    [interest_payment] values of the months that [month_loop] processes. *)
Fixpoint month_interest (months : nat) (monthly_rate monthly_payment : Qc)
  (balance yearly_interest : Qc) : Qc :=
  match months with
  | O => yearly_interest
  | S months' =>
    if le balance 0 then yearly_interest
    else
      let interest_payment := balance * monthly_rate in
      let principal_payment := monthly_payment - interest_payment in
      month_interest months' monthly_rate monthly_payment
        (balance - principal_payment) (yearly_interest + interest_payment)
  end.

(** The interest portion of the payments of the year a record describes:
    the balance carried into the year is the recorded remaining balance
    plus the recorded paydown. *)
Definition yearly_interest (monthly_rate monthly_payment : Qc) (term : Z)
  (p : YearlyProjection.t Qc) : Qc :=
  if (term <? YearlyProjection.year p)%Z then 0
  else
    month_interest 12 monthly_rate monthly_payment
      (YearlyProjection.remaining_balance p
       + YearlyProjection.principal_paydown p) 0.

(** ** Scenarios *)

(** A loan of 1200 at 12 percent a year over one year, held for one. *)
Definition scenario_one_year : PropertyInvestmentInput.t Qc :=
  PropertyInvestmentInput.mk (of_int 1200) (of_int 0) (of_int 12) 1
    (of_int 100) 1 (of_int 0) (of_int 0) (lit 1.0) (of_int 0) (of_int 0)
    (of_int 0).

(** A loan of 1200 at 12 percent a year over three years, held for two. *)
Definition scenario_three_years : PropertyInvestmentInput.t Qc :=
  PropertyInvestmentInput.mk (of_int 1200) (of_int 0) (of_int 12) 3
    (of_int 100) 2 (of_int 0) (of_int 0) (lit 1.0) (of_int 0) (of_int 0)
    (of_int 0).

(** A loan of 3000 at 1200 percent a year (100 percent a month) over two
    years, held for two years. *)
Definition scenario_two_years : PropertyInvestmentInput.t Qc :=
  PropertyInvestmentInput.mk (of_int 3000) (of_int 0) (of_int 1200) 2
    (of_int 100) 2 (of_int 0) (of_int 0) (lit 1.0) (of_int 0) (of_int 0)
    (of_int 0).

(** Scenarios in binary64. *)
Module Binary64.

(** A loan of 240000 over 20 years at an annual rate of 1e-15 percent. *)
Definition scenario_tiny_rate : PropertyInvestmentInput.t float :=
  PropertyInvestmentInput.mk (of_int 240000) (of_int 0) (lit 1e-15) 20
    (of_int 1500) 20 (of_int 0) (of_int 0) (lit 1.0) (of_int 0) (of_int 0)
    (of_int 0).

(** The rent grows by a million percent a year over a holding period of
    a hundred years. *)
Definition scenario_steep_growth : PropertyInvestmentInput.t float :=
  PropertyInvestmentInput.mk (of_int 240000) (of_int 0) (lit 3.5) 20
    (of_int 1500) 100 (of_int 0) (of_int 0) (lit 1.0) (of_int 0) (of_int 0)
    (of_int 1000000).

(** The scenario of the stored reference values of the test suite. *)
Definition scenario_reference : PropertyInvestmentInput.t float :=
  PropertyInvestmentInput.mk (of_int 240000) (of_int 0) (lit 3.5) 20
    (of_int 1500) 20 (of_int 0) (of_int 0) (lit 1.0) (of_int 0) (of_int 0)
    (of_int 0).

End Binary64.

(** ** A scenario with another vacancy rate *)

(** The scenario [s] with the vacancy rate replaced by [v], to compare two
    runs of [analyze] that differ in this input only. *)
Definition with_vacancy_rate (s : PropertyInvestmentInput.t Qc) (v : Qc)
  : PropertyInvestmentInput.t Qc :=
  PropertyInvestmentInput.mk (property_price s) (down_payment s)
    (interest_rate s) (loan_term_years s) (monthly_rent s)
    (holding_period_years s) (property_tax_annual s) (hoa_monthly s)
    (maintenance_percent s) (management_fee_percent s) v
    (rent_increase_annual s).

(** ** The report: [format_table] *)

(** [str(n)] of a Python integer. *)
Definition str (n : Z) : string :=
  DecimalString.NilZero.string_of_int (Z.to_int n).

(** The truth value of an [Optional[int]]: [None] and [0] are false. *)
Definition truthy (o : option Z) : bool :=
  match o with
  | None => false
  | Some n => negb (n =? 0)%Z
  end.

(** [str(o)] of an [Optional[int]]. *)
Definition str_optional (o : option Z) : string :=
  match o with
  | None => "None"
  | Some n => str n
  end.

(** The break-even line of [format_table]: the line the function appends
    after the summary figures. *)
Definition break_even_line {num : Type} (result : PropertyInvestmentResult.t num)
  : string :=
  let summary := PropertyInvestmentResult.summary result in
  if truthy (InvestmentSummary.break_even_year summary) then
    ("Break-even Year:       "
     ++ str_optional (InvestmentSummary.break_even_year summary))%string
  else
    ("Break-even Year:       Not reached in "
     ++ str (holding_period_years (PropertyInvestmentResult.input result))
     ++ " years")%string.

(** ** The command line: [main]

    [main] is read for a run without [--json-input]: [Args.t] holds what
    [parser.parse_args()] returns, an option per argument without a
    default.  The run ends in one of four ways. *)

Module Args.
Inductive format : Type := json | table.
Record t : Type := mk {
  property_price : option float;
  down_payment : option float;
  interest_rate : option float;
  loan_term : option Z;
  monthly_rent : option float;
  holding_period : option Z;
  property_tax_annual : float;
  hoa_monthly : float;
  maintenance_percent : float;
  management_fee_percent : float;
  vacancy_rate : float;
  rent_increase_annual : float;
  format_ : format
}.
End Args.

Inductive outcome : Type :=
  | Printed (format : Args.format) (result : PropertyInvestmentResult.t float)
  | Usage (message : string)
  | Error (message : string)
  | Unexpected_error (e : exn).

(** The status the process ends with: [parser.error] exits with 2, the
    two handlers with [sys.exit(1)]. *)
Definition exit_status (o : outcome) : Z :=
  match o with
  | Printed _ _ => 0
  | Usage _ => 2
  | Error _ => 1
  | Unexpected_error _ => 1
  end.

(** The handlers of [main]: [except (ValueError, KeyError)] before
    [except Exception]. *)
Definition handle (format : Args.format)
  (r : result (PropertyInvestmentResult.t float)) : outcome :=
  match r with
  | Ok result => Printed format result
  | Raise (ValueError msg) => Error msg
  | Raise e => Unexpected_error e
  end.

(** [None in required], and the [PropertyInvestmentInput] built from the
    arguments otherwise. *)
Definition input_data_of (args : Args.t)
  : option (PropertyInvestmentInput.t float) :=
  match Args.property_price args, Args.down_payment args,
        Args.interest_rate args, Args.loan_term args,
        Args.monthly_rent args, Args.holding_period args with
  | Some property_price, Some down_payment, Some interest_rate,
    Some loan_term, Some monthly_rent, Some holding_period =>
    Some (PropertyInvestmentInput.mk property_price down_payment interest_rate
            loan_term monthly_rent holding_period
            (Args.property_tax_annual args) (Args.hoa_monthly args)
            (Args.maintenance_percent args) (Args.management_fee_percent args)
            (Args.vacancy_rate args) (Args.rent_increase_annual args))
  | _, _, _, _, _, _ => None
  end.

Definition main (args : Args.t) : outcome :=
  match input_data_of args with
  | None =>
    Usage "All required arguments must be provided when not using --json-input"
  | Some input_data => handle (Args.format_ args) (analyze input_data)
  end.

(** The arguments of the reference scenario, printed as a table. *)
Definition args_reference : Args.t :=
  Args.mk (Some (of_int 240000)) (Some (of_int 0)) (Some (lit 3.5)) (Some 20%Z)
    (Some (of_int 1500)) (Some 20%Z) (of_int 0) (of_int 0) (lit 1.0)
    (of_int 0) (of_int 0) (of_int 0) Args.table.

(** * Properties *)

(** Unfolds the operations of [Arith] at the exact instance. *)
Ltac exact_ops :=
  cbn [of_int lit add sub mul neg div pow le lt eqb Qc_arith] in *.

(** ** From [Qc] to [Q]: order reasoning is done on the underlying
    rationals, where [lra] and [nra] apply. *)

Lemma Qc_eq_Q (x y : Qc) : x = y <-> (this x == this y)%Q.
Proof. split; [intros ->; reflexivity | apply Qc_is_canon]. Qed.

Lemma this_plus (x y : Qc) : (this (x + y) == this x + this y)%Q.
Proof. apply Qred_correct. Qed.

Lemma this_mult (x y : Qc) : (this (x * y) == this x * this y)%Q.
Proof. apply Qred_correct. Qed.

Lemma this_opp (x : Qc) : (this (- x) == - this x)%Q.
Proof. apply Qred_correct. Qed.

Lemma this_minus (x y : Qc) : (this (x - y) == this x - this y)%Q.
Proof. unfold Qcminus. rewrite this_plus, this_opp. reflexivity. Qed.

Lemma this_inv (x : Qc) : (this (/ x) == / this x)%Q.
Proof. apply Qred_correct. Qed.

Lemma this_div (x y : Qc) : (this (x / y) == this x / this y)%Q.
Proof. unfold Qcdiv. rewrite this_mult, this_inv. reflexivity. Qed.

Lemma this_Q2Qc (q : Q) : (this (Q2Qc q) == q)%Q.
Proof. apply Qred_correct. Qed.

(** Restates the equalities and inequalities of [Qc] in the goal and the
    context on the underlying rationals. *)
Ltac qc2q :=
  repeat match goal with
  | H : @eq Qc _ _ |- _ => apply Qc_eq_Q in H
  | H : ~ @eq Qc _ _ |- _ => rewrite Qc_eq_Q in H
  | |- @eq Qc _ _ => apply Qc_eq_Q
  | |- ~ @eq Qc _ _ => rewrite Qc_eq_Q
  end;
  unfold Qcle, Qclt in *;
  repeat match goal with
  | H : context [this (?x + ?y)] |- _ => rewrite (this_plus x y) in H
  | H : context [this (?x - ?y)] |- _ => rewrite (this_minus x y) in H
  | H : context [this (?x * ?y)] |- _ => rewrite (this_mult x y) in H
  | H : context [this (?x / ?y)] |- _ => rewrite (this_div x y) in H
  | H : context [this (- ?x)] |- _ => rewrite (this_opp x) in H
  | H : context [this (/ ?x)] |- _ => rewrite (this_inv x) in H
  | H : context [this (Q2Qc ?x)] |- _ => rewrite (this_Q2Qc x) in H
  | |- context [this (?x + ?y)] => rewrite (this_plus x y)
  | |- context [this (?x - ?y)] => rewrite (this_minus x y)
  | |- context [this (?x * ?y)] => rewrite (this_mult x y)
  | |- context [this (?x / ?y)] => rewrite (this_div x y)
  | |- context [this (- ?x)] => rewrite (this_opp x)
  | |- context [this (/ ?x)] => rewrite (this_inv x)
  | |- context [this (Q2Qc ?x)] => rewrite (this_Q2Qc x)
  end.

(** ** The operations of the exact instance *)

Lemma le_iff (x y : Qc) : le x y = true <-> x <= y.
Proof. exact_ops. apply Qle_bool_iff. Qed.

Lemma le_false_iff (x y : Qc) : le x y = false <-> y < x.
Proof.
  rewrite <- not_true_iff_false, le_iff. split.
  - apply Qcnot_le_lt.
  - intros H1 H2. exact (Qclt_not_le _ _ H1 H2).
Qed.

Lemma lt_iff (x y : Qc) : lt x y = true <-> x < y.
Proof. exact_ops. rewrite negb_true_iff. apply (le_false_iff y x). Qed.

Lemma lt_false_iff (x y : Qc) : lt x y = false <-> y <= x.
Proof. exact_ops. rewrite negb_false_iff. apply (le_iff y x). Qed.

Lemma eqb_iff (x y : Qc) : eqb x y = true <-> x = y.
Proof.
  exact_ops. unfold Qc_eq_bool. destruct (Qc_eq_dec x y); split; congruence.
Qed.

Lemma eqb_false_iff (x y : Qc) : eqb x y = false <-> x <> y.
Proof. rewrite <- not_true_iff_false, eqb_iff. reflexivity. Qed.

Lemma div_Ok (x y : Qc) : y <> 0 -> div x y = Ok (x / y).
Proof.
  intros Hy. exact_ops. unfold Qc_div.
  destruct (Qc_eq_bool y 0) eqn:E; [|reflexivity].
  apply Qc_eq_bool_correct in E. contradiction.
Qed.


Lemma pow_Ok (x : Qc) (n : Z) : (0 <= n)%Z -> pow x n = Ok (x ^ Z.to_nat n).
Proof.
  intros Hn. exact_ops. destruct n as [|p|p]; [reflexivity|reflexivity|lia].
Qed.

Lemma of_int_0 : of_int 0 = 0.
Proof. reflexivity. Qed.

Lemma of_int_1 : of_int 1 = 1.
Proof. reflexivity. Qed.

Lemma lit_0 : lit 0.0 = 0.
Proof. apply Q2Qc_eq_iff. reflexivity. Qed.

Lemma lit_nonzero (q : Q) : ~ (q == 0)%Q -> lit q <> 0.
Proof. intros Hq H. apply Q2Qc_eq_iff in H. contradiction. Qed.

Lemma of_int_nonzero (z : Z) : z <> 0%Z -> of_int z <> 0.
Proof.
  intros Hz H. apply Q2Qc_eq_iff in H. unfold Qeq in H. simpl in H. lia.
Qed.

Lemma of_int_pos (z : Z) : (0 < z)%Z -> 0 < of_int z.
Proof.
  intros Hz. exact_ops. qc2q. unfold Qlt. simpl. lia.
Qed.

Lemma lit_100_nonzero : lit 100.0 <> 0.
Proof. apply lit_nonzero. discriminate. Qed.

Lemma lit_12_nonzero : lit 12.0 <> 0.
Proof. apply lit_nonzero. discriminate. Qed.

Create HintDb exact_arith.
#[local] Hint Resolve lit_100_nonzero lit_12_nonzero : exact_arith.

Lemma of_int_add (a b : Z) : of_int (a + b) = of_int a + of_int b.
Proof.
  exact_ops. unfold Qcplus. apply Q2Qc_eq_iff.
  rewrite !this_Q2Qc, inject_Z_plus. reflexivity.
Qed.

Lemma of_int_succ (k : nat) :
  of_int (Z.of_nat (S k)) = of_int (Z.of_nat k) + 1.
Proof. rewrite Nat2Z.inj_succ, <- Z.add_1_r. apply of_int_add. Qed.

Lemma Qcminus_eq_0 (x y : Qc) : x - y = 0 -> x = y.
Proof. intros H. qc2q. lra. Qed.

Lemma Qcpower_S (x : Qc) (k : nat) : x ^ S k = x * x ^ k.
Proof. reflexivity. Qed.

Lemma Qcpower_gt_0 (x : Qc) (k : nat) : 0 < x -> 0 < x ^ k.
Proof.
  intros Hx. induction k as [|k IH].
  - reflexivity.
  - rewrite Qcpower_S. qc2q. nra.
Qed.

Lemma Qcpower_ge_1 (x : Qc) (k : nat) : 1 <= x -> 1 <= x ^ k.
Proof.
  intros Hx. induction k as [|k IH].
  - simpl. qc2q. lra.
  - rewrite Qcpower_S. qc2q. nra.
Qed.

Lemma Qcpower_gt_1 (x : Qc) (k : nat) : 1 < x -> (0 < k)%nat -> 1 < x ^ k.
Proof.
  intros Hx Hk. destruct k as [|k]; [lia|].
  rewrite Qcpower_S.
  assert (H1 : 1 <= x ^ k) by (apply Qcpower_ge_1; qc2q; lra).
  qc2q. nra.
Qed.

(** ** Operation A: the periodic payment *)

Lemma balance_after_closed (rate payment : Qc) (k : nat) (b : Qc) :
  rate <> 0 ->
  balance_after rate payment k b =
  b * (1 + rate) ^ k - payment * ((1 + rate) ^ k - 1) / rate.
Proof.
  intros Hr. revert b. induction k as [|k IH]; intros b.
  - simpl. field. exact Hr.
  - simpl balance_after. rewrite IH, Qcpower_S. field. exact Hr.
Qed.



Lemma monthly_payment_formula (principal rate : Qc) (n : Z) :
  (0 < n)%Z -> rate <> 0 -> (1 + rate) ^ Z.to_nat n <> 1 ->
  _calculate_monthly_payment principal rate n =
  Ok (principal * (rate * (1 + rate) ^ Z.to_nat n)
      / ((1 + rate) ^ Z.to_nat n - 1)).
Proof.
  intros Hn Hr Hp. unfold _calculate_monthly_payment.
  replace (eqb rate (lit 0.0)) with false
    by (symmetry; apply eqb_false_iff; rewrite lit_0; exact Hr).
  rewrite pow_Ok by lia. cbn [bind]. rewrite of_int_1.
  exact_ops. apply div_Ok.
  intros H. apply Hp, Qcminus_eq_0, H.
Qed.

Lemma monthly_payment_positive_rate (principal rate : Qc) (n : Z) :
  (0 < n)%Z -> 0 < rate ->
  _calculate_monthly_payment principal rate n =
  Ok (principal * (rate * (1 + rate) ^ Z.to_nat n)
      / ((1 + rate) ^ Z.to_nat n - 1)).
Proof.
  intros Hn Hr. apply monthly_payment_formula; [exact Hn | |].
  - intros H. rewrite H in Hr. discriminate Hr.
  - apply not_eq_sym, Qclt_not_eq, Qcpower_gt_1; [qc2q; lra | lia].
Qed.



(** ** The input validator *)

(** Turns the outcomes of the boolean tests in the context into order
    facts. *)
Ltac bool_to_prop :=
  repeat match goal with
  | H : negb _ = true |- _ => apply negb_true_iff in H
  | H : negb _ = false |- _ => apply negb_false_iff in H
  | H : andb _ _ = true |- _ => apply andb_true_iff in H
  | H : andb _ _ = false |- _ => apply andb_false_iff in H
  | H : le _ _ = true |- _ => apply le_iff in H
  | H : le _ _ = false |- _ => apply le_false_iff in H
  | H : lt _ _ = true |- _ => apply lt_iff in H
  | H : lt _ _ = false |- _ => apply lt_false_iff in H
  | H : (_ <=? _)%Z = true |- _ => apply Z.leb_le in H
  | H : (_ <=? _)%Z = false |- _ => apply Z.leb_gt in H
  | H : (_ <? _)%Z = true |- _ => apply Z.ltb_lt in H
  | H : (_ <? _)%Z = false |- _ => apply Z.ltb_ge in H
  | H : _ /\ _ |- _ => destruct H
  | H : _ \/ _ |- _ => destruct H
  end.

(** Closes a goal that follows from the order facts in the context. *)
Ltac order_facts :=
  solve [ lia
        | exact_ops; rewrite ?of_int_0 in *; qc2q; unfold inject_Z in *; lra ].



Lemma validate_input_Ok (s : PropertyInvestmentInput.t Qc) :
  _validate_input s = Ok tt -> forall f, invariant s f.
Proof.
  unfold _validate_input. intros H.
  repeat (match type of H with
          | context [raise_if ?c _] => destruct c eqn:?; cbn [raise_if bind] in H
          end; [discriminate H|]).
  bool_to_prop.
  intros f; destruct f; cbn [invariant]; try split; order_facts.
Qed.


Lemma analyze_invalid (s : PropertyInvestmentInput.t Qc) (e : exn) :
  _validate_input s = Raise e -> analyze s = Raise e.
Proof. intros H. unfold analyze. rewrite H. reflexivity. Qed.








(** ** The year loop, read exactly

    On a validated scenario no division and no power of the engine can
    raise, and [analyze] returns the record [analysis s]. *)

Lemma year_body_Ok (s : PropertyInvestmentInput.t Qc) (st : Loop.t Qc) (year : Z) :
  (1 <= year)%Z ->
  year_body s (loan_amount_of s) (monthly_rate_of s)
    (total_monthly_mortgage_of s) st year
  = Ok (year_step s st year).
Proof.
  intros Hy. unfold year_body.
  rewrite !div_Ok by apply lit_100_nonzero. cbn [bind].
  rewrite pow_Ok by lia. reflexivity.
Qed.

Lemma year_loop_Ok (s : PropertyInvestmentInput.t Qc) (years : list Z) :
  Forall (fun y => 1 <= y)%Z years ->
  forall st,
  year_loop s (loan_amount_of s) (monthly_rate_of s)
    (total_monthly_mortgage_of s) years st
  = Ok (fold_left (year_step s) years st).
Proof.
  induction 1 as [|y years Hy _ IH]; intros st.
  - reflexivity.
  - cbn [year_loop fold_left]. rewrite year_body_Ok by exact Hy.
    cbn [bind]. apply IH.
Qed.

Lemma range_ge (lo hi : Z) : Forall (fun y => lo <= y)%Z (range lo hi).
Proof.
  unfold range. apply Forall_forall. intros y Hy.
  apply in_map_iff in Hy. destruct Hy as [i [<- _]]. lia.
Qed.

(** Brings the twelve invariants of a validated scenario into the context. *)
Ltac invariants_of H :=
  let V := fresh "V" in
  pose proof (validate_input_Ok _ H) as V;
  pose proof (V PropertyPrice); pose proof (V DownPayment);
  pose proof (V InterestRate); pose proof (V LoanTerm);
  pose proof (V MonthlyRent); pose proof (V HoldingPeriod);
  pose proof (V PropertyTax); pose proof (V HoaFees);
  pose proof (V MaintenancePercent); pose proof (V ManagementFeePercent);
  pose proof (V VacancyRate); pose proof (V RentIncrease);
  clear V; cbn [invariant] in *;
  repeat match goal with H' : _ /\ _ |- _ => destruct H' end.

Section Validated.
Variable s : PropertyInvestmentInput.t Qc.
Hypothesis Hvalid : _validate_input s = Ok tt.

Lemma loan_amount_pos : 0 < loan_amount_of s.
Proof. invariants_of Hvalid. unfold loan_amount_of. order_facts. Qed.

Lemma monthly_rate_pos : 0 < monthly_rate_of s.
Proof.
  invariants_of Hvalid. unfold monthly_rate_of. exact_ops. qc2q.
  repeat apply Qlt_shift_div_l; try reflexivity. lra.
Qed.

Lemma num_payments_pos : (0 < num_payments_of s)%Z.
Proof. invariants_of Hvalid. unfold num_payments_of. lia. Qed.

Lemma initial_investment_pos : 0 < initial_investment_of s.
Proof.
  pose proof loan_amount_pos. invariants_of Hvalid.
  unfold initial_investment_of. exact_ops. qc2q. nra.
Qed.

Lemma monthly_payment_Ok :
  _calculate_monthly_payment (loan_amount_of s) (monthly_rate_of s)
    (num_payments_of s)
  = Ok (monthly_mortgage_payment_of s).
Proof.
  apply monthly_payment_positive_rate.
  - apply num_payments_pos.
  - apply monthly_rate_pos.
Qed.

Lemma analyze_Ok : analyze s = Ok (analysis s).
Proof.
  unfold analyze. rewrite Hvalid. cbn [bind].
  repeat (rewrite div_Ok by auto with exact_arith; cbn [bind]).
  change (_calculate_monthly_payment _ _ _)
    with (_calculate_monthly_payment (loan_amount_of s) (monthly_rate_of s)
            (num_payments_of s)).
  rewrite monthly_payment_Ok. cbn [bind].
  change (year_loop s _ _ _ _ _)
    with (year_loop s (loan_amount_of s) (monthly_rate_of s)
            (total_monthly_mortgage_of s)
            (range 1 (holding_period_years s + 1)) (initial_state s)).
  rewrite year_loop_Ok by apply range_ge.
  cbn [bind]. fold (final_state s).
  assert (Hi : initial_investment_of s <> 0)
    by (apply not_eq_sym, Qclt_not_eq, initial_investment_pos).
  assert (Hh : of_int (holding_period_years s) <> 0 :> Qc)
    by (apply of_int_nonzero; invariants_of Hvalid; lia).
  match goal with
  | |- context [div ?x ?y] => rewrite (div_Ok x y) by exact Hi
  end. cbn [bind].
  match goal with
  | |- context [div ?x ?y] => rewrite (div_Ok x y) by exact Hh
  end. cbn [bind].
  match goal with
  | |- context [div ?x ?y] => rewrite (div_Ok x y) by exact Hi
  end. cbn [bind].
  reflexivity.
Qed.

End Validated.

(** ** The projection sequence *)

Lemma last_cons_default {A : Type} (l : list A) :
  forall a d, last (a :: l) d = last l a.
Proof.
  induction l as [|b l IH]; intros a d; [reflexivity|].
  change (last (a :: b :: l) d) with (last (b :: l) d).
  rewrite !IH. reflexivity.
Qed.

Lemma year_projection_year (s : PropertyInvestmentInput.t Qc) (b c : Qc) (y : Z) :
  YearlyProjection.year (year_projection s b c y) = y.
Proof. reflexivity. Qed.

Lemma fold_year_step (s : PropertyInvestmentInput.t Qc) (years : list Z) :
  forall st,
  let projections :=
    projections_from s years (Loop.remaining_balance st)
      (Loop.cumulative_cash_flow st) in
  fold_left (year_step s) years st =
  Loop.mk (Loop.yearly_projections st ++ projections)
    (last (map (@YearlyProjection.cumulative_cash_flow Qc) projections)
       (Loop.cumulative_cash_flow st))
    (last (map (@YearlyProjection.remaining_balance Qc) projections)
       (Loop.remaining_balance st))
    (marker_or (Loop.break_even_year st) (first_crossing projections)).
Proof.
  induction years as [|y years IH]; intros st.
  - cbn. rewrite app_nil_r. destruct st as [ps c b [m|]]; reflexivity.
  - cbn [fold_left]. rewrite IH. clear IH.
    cbn [year_step Loop.yearly_projections Loop.cumulative_cash_flow
         Loop.remaining_balance Loop.break_even_year projections_from].
    set (p := year_projection s (Loop.remaining_balance st)
                (Loop.cumulative_cash_flow st) y).
    set (rest := projections_from s years _ _).
    f_equal.
    + rewrite <- app_assoc. reflexivity.
    + cbn [map]. rewrite last_cons_default. reflexivity.
    + cbn [map]. rewrite last_cons_default. reflexivity.
    + unfold first_crossing, next_break_even. cbn [find].
      destruct (Loop.break_even_year st) as [m|]; [reflexivity|].
      subst p. destruct (le 0 _); reflexivity.
Qed.

Lemma final_state_projections (s : PropertyInvestmentInput.t Qc) :
  Loop.yearly_projections (final_state s) =
  projections_from s (range 1 (holding_period_years s + 1))
    (loan_amount_of s) (- initial_investment_of s).
Proof. unfold final_state. rewrite fold_year_step. reflexivity. Qed.

Lemma projections_from_length (s : PropertyInvestmentInput.t Qc) (years : list Z) :
  forall b c, List.length (projections_from s years b c) = List.length years.
Proof.
  induction years as [|y years IH]; intros b c; [reflexivity|].
  cbn. f_equal. apply IH.
Qed.

Lemma projections_from_head (s : PropertyInvestmentInput.t Qc) (years : list Z)
  (b c : Qc) (p : YearlyProjection.t Qc) :
  nth_error (projections_from s years b c) 0 = Some p ->
  exists y, nth_error years 0 = Some y /\ p = year_projection s b c y.
Proof.
  destruct years as [|y years]; cbn; [discriminate|].
  intros [= <-]. exists y. split; reflexivity.
Qed.

Lemma projections_from_succ (s : PropertyInvestmentInput.t Qc) (years : list Z) :
  forall b c i q p,
  nth_error (projections_from s years b c) i = Some q ->
  nth_error (projections_from s years b c) (S i) = Some p ->
  exists y, nth_error years (S i) = Some y /\
    p = year_projection s (YearlyProjection.remaining_balance q)
          (YearlyProjection.cumulative_cash_flow q) y.
Proof.
  induction years as [|y years IH]; intros b c i q p Hq Hp.
  - destruct i; discriminate Hq.
  - destruct i as [|i].
    + cbn in Hq. injection Hq as <-.
      cbn [projections_from nth_error] in Hp.
      apply projections_from_head in Hp. exact Hp.
    + cbn [projections_from nth_error] in Hq, Hp.
      exact (IH _ _ _ _ _ Hq Hp).
Qed.

Lemma range_length (lo hi : Z) : List.length (range lo hi) = Z.to_nat (hi - lo).
Proof. unfold range. rewrite length_map, length_seq. reflexivity. Qed.

Lemma range_nth_error (lo hi : Z) (i : nat) (y : Z) :
  nth_error (range lo hi) i = Some y -> y = (lo + Z.of_nat i)%Z.
Proof.
  unfold range. intros H.
  rewrite nth_error_map in H.
  destruct (nth_error (seq 0 (Z.to_nat (hi - lo))) i) as [k|] eqn:E;
    [|discriminate H].
  cbn in H. injection H as <-.
  assert (Hlt : (i < Z.to_nat (hi - lo))%nat).
  { assert (H1 : nth_error (seq 0 (Z.to_nat (hi - lo))) i <> None)
      by (rewrite E; discriminate).
    apply nth_error_Some in H1. rewrite length_seq in H1. exact H1. }
  rewrite nth_error_nth' with (d := 0%nat) in E by (rewrite length_seq; exact Hlt).
  rewrite seq_nth in E by exact Hlt. injection E as <-. reflexivity.
Qed.

Lemma nth_error_pred {A : Type} (l : list A) (i : nat) (x : A) :
  nth_error l (S i) = Some x -> exists y, nth_error l i = Some y.
Proof.
  intros H. destruct (nth_error l i) as [y|] eqn:E; [exists y; reflexivity|].
  apply nth_error_None in E.
  assert (H1 : nth_error l (S i) = None) by (apply nth_error_None; lia).
  congruence.
Qed.

Lemma projections_from_nth (s : PropertyInvestmentInput.t Qc) (years : list Z)
  (b c : Qc) (i : nat) (p : YearlyProjection.t Qc) :
  nth_error (projections_from s years b c) i = Some p ->
  exists b' c' y, nth_error years i = Some y /\ p = year_projection s b' c' y.
Proof.
  intros H. destruct i as [|i].
  - apply projections_from_head in H. destruct H as [y [Hy ->]].
    exists b, c, y. split; [exact Hy | reflexivity].
  - destruct (nth_error_pred _ _ _ H) as [q Hq].
    destruct (projections_from_succ _ _ _ _ _ _ _ Hq H) as [y [Hy ->]].
    do 3 eexists. split; [exact Hy | reflexivity].
Qed.

(** The projections of a validated scenario are those of the years
    [1 .. holding_period_years]. *)
Lemma analysis_projections (s : PropertyInvestmentInput.t Qc) :
  PropertyInvestmentResult.yearly_projections (analysis s) =
  projections_from s (range 1 (holding_period_years s + 1))
    (loan_amount_of s) (- initial_investment_of s).
Proof. apply final_state_projections. Qed.

Lemma analysis_projection_nth (s : PropertyInvestmentInput.t Qc) (i : nat)
  (p : YearlyProjection.t Qc) :
  nth_error (PropertyInvestmentResult.yearly_projections (analysis s)) i = Some p ->
  exists b c, p = year_projection s b c (Z.of_nat (S i)).
Proof.
  rewrite analysis_projections. intros H.
  apply projections_from_nth in H. destruct H as [b [c [y [Hy ->]]]].
  apply range_nth_error in Hy. subst y.
  exists b, c. f_equal. lia.
Qed.

(** ** C3: the yearly projections *)

(** C3: the projection sequence of a validated scenario has one record
    per year 1 .. holding period; the record of year [y] has the vacancy
    adjusted, compounded rent as rental income, a management expense on
    the compounded rent before vacancy, and an expense total that sums
    mortgage, property tax, HOA, maintenance and management and leaves
    the reported insurance out. *)
Theorem yearly_projection_spec (s : PropertyInvestmentInput.t Qc) :
  _validate_input s = Ok tt ->
  exists res, analyze s = Ok res /\
  List.length (PropertyInvestmentResult.yearly_projections res)
  = Z.to_nat (holding_period_years s) /\
  forall (i : nat) (p : YearlyProjection.t Qc),
    nth_error (PropertyInvestmentResult.yearly_projections res) i = Some p ->
    let y := YearlyProjection.year p in
    let e := YearlyProjection.expenses p in
    let grown_rent :=
      monthly_rent s
      * (1 + rent_increase_annual s / lit 100.0) ^ Z.to_nat (y - 1) in
    y = Z.of_nat (S i) /\
    YearlyProjection.rental_income p
    = grown_rent * (1 - vacancy_rate s / lit 100.0) * of_int 12 /\
    YearlyExpenses.mortgage e
    = MortgageDetails.monthly_payment (PropertyInvestmentResult.mortgage res)
      * of_int 12 /\
    YearlyExpenses.property_tax e = property_tax_annual s /\
    YearlyExpenses.hoa e = hoa_monthly s * of_int 12 /\
    YearlyExpenses.maintenance e
    = property_price s * (maintenance_percent s / lit 100.0) /\
    YearlyExpenses.management e
    = grown_rent * of_int 12 * (management_fee_percent s / lit 100.0) /\
    YearlyExpenses.insurance e
    = InvestmentSummary.loan_amount (PropertyInvestmentResult.summary res)
      * lit 0.004 /\
    YearlyExpenses.total e
    = YearlyExpenses.mortgage e + YearlyExpenses.property_tax e
      + YearlyExpenses.hoa e + YearlyExpenses.maintenance e
      + YearlyExpenses.management e.
Proof.
  intros Hvalid. exists (analysis s). split; [apply analyze_Ok, Hvalid|].
  split.
  - rewrite analysis_projections, projections_from_length, range_length.
    f_equal. lia.
  - intros i p Hp. apply analysis_projection_nth in Hp.
    destruct Hp as [b [c ->]]. cbn -[Z.of_nat].
    repeat split; reflexivity.
Qed.

Lemma scenario_one_year_valid : _validate_input scenario_one_year = Ok tt.
Proof. vm_compute. reflexivity. Qed.

Lemma yearly_projection_spec_witness :
  _validate_input scenario_one_year = Ok tt /\
  exists res, analyze scenario_one_year = Ok res /\
  List.length (PropertyInvestmentResult.yearly_projections res)
  = Z.to_nat (holding_period_years scenario_one_year).
Proof.
  split; [vm_compute; reflexivity|].
  destruct (yearly_projection_spec scenario_one_year) as [res [H1 [H2 _]]].
  - vm_compute. reflexivity.
  - exists res. split; assumption.
Defined.

(** ** Operation B: the yearly principal paydown *)

Lemma month_loop_steps (rate outlay : Qc) (months : nat) :
  forall balance paid,
  monthly_steps rate outlay months balance paid
    (month_loop months rate outlay balance paid).
Proof.
  induction months as [|months IH]; intros balance paid.
  - apply steps_done.
  - cbn [month_loop]. destruct (le balance (of_int 0)) eqn:E.
    + apply steps_stop. apply le_iff in E. exact E.
    + apply steps_month; [apply le_false_iff in E; exact E | apply IH].
Qed.

Lemma monthly_steps_functional (rate outlay : Qc) (months : nat)
  (balance paid total : Qc) :
  monthly_steps rate outlay months balance paid total ->
  total = month_loop months rate outlay balance paid.
Proof.
  induction 1 as [b p | n b p Hb | n b p t Hb _ IH].
  - reflexivity.
  - cbn [month_loop]. apply (le_iff b 0) in Hb. rewrite of_int_0, Hb.
    reflexivity.
  - cbn [month_loop]. apply (le_false_iff b 0) in Hb. rewrite of_int_0, Hb.
    exact IH.
Qed.

Lemma paydown_beyond_term (balance rate outlay : Qc) (year term : Z) :
  (term < year)%Z ->
  _calculate_yearly_principal_paydown balance rate outlay year term = 0.
Proof.
  intros H. unfold _calculate_yearly_principal_paydown.
  apply Z.ltb_lt in H. rewrite H. apply lit_0.
Qed.

Lemma paydown_within_term (balance rate outlay : Qc) (year term : Z) :
  (year <= term)%Z ->
  _calculate_yearly_principal_paydown balance rate outlay year term
  = month_loop 12 rate outlay balance 0.
Proof.
  intros H. unfold _calculate_yearly_principal_paydown.
  apply Z.ltb_ge in H. rewrite H, lit_0. reflexivity.
Qed.

(** C1, as the code has it: the paydown of year [y] is Operation B on the
    balance carried from the previous iteration (the loan amount in year
    1), the periodic rate and the total monthly outlay, which is the
    principal-and-interest payment plus the monthly insurance charge;
    Operation B returns 0 beyond the loan term and otherwise replays at
    most 12 monthly steps. *)
Theorem principal_paydown_spec (s : PropertyInvestmentInput.t Qc) :
  _validate_input s = Ok tt ->
  exists res payment, analyze s = Ok res /\
  let projections := PropertyInvestmentResult.yearly_projections res in
  let loan := property_price s - down_payment s in
  let rate := interest_rate s / lit 100.0 / lit 12.0 in
  let term := loan_term_years s in
  let outlay := payment + loan * lit 0.004 / lit 12.0 in
  _calculate_monthly_payment loan rate (term * 12) = Ok payment /\
  MortgageDetails.monthly_payment (PropertyInvestmentResult.mortgage res)
  = outlay /\
  (forall p, nth_error projections 0 = Some p ->
     YearlyProjection.principal_paydown p
     = _calculate_yearly_principal_paydown loan rate outlay 1 term) /\
  (forall i q p,
     nth_error projections i = Some q ->
     nth_error projections (S i) = Some p ->
     YearlyProjection.principal_paydown p
     = _calculate_yearly_principal_paydown
         (YearlyProjection.remaining_balance q) rate outlay
         (Z.of_nat (S (S i))) term) /\
  (forall balance year,
     (term < year)%Z ->
     _calculate_yearly_principal_paydown balance rate outlay year term = 0) /\
  (forall balance year,
     (year <= term)%Z ->
     monthly_steps rate outlay 12 balance 0
       (_calculate_yearly_principal_paydown balance rate outlay year term)).
Proof.
  intros Hvalid.
  exists (analysis s), (monthly_mortgage_payment_of s).
  split; [apply analyze_Ok, Hvalid|]. cbv zeta.
  split; [apply (monthly_payment_Ok s Hvalid)|].
  split; [reflexivity|].
  rewrite analysis_projections.
  split; [|split; [|split]].
  - intros p Hp. apply projections_from_head in Hp.
    destruct Hp as [y [Hy ->]]. apply range_nth_error in Hy. subst y.
    reflexivity.
  - intros i q p Hq Hp.
    destruct (projections_from_succ _ _ _ _ _ _ _ Hq Hp) as [y [Hy ->]].
    apply range_nth_error in Hy. subst y.
    cbn [year_projection YearlyProjection.principal_paydown].
    f_equal. lia.
  - intros balance year Hy. apply paydown_beyond_term, Hy.
  - intros balance year Hy. rewrite paydown_within_term by exact Hy.
    apply month_loop_steps.
Qed.

Lemma principal_paydown_spec_witness :
  _validate_input scenario_one_year = Ok tt /\
  exists res payment, analyze scenario_one_year = Ok res /\
  _calculate_monthly_payment
    (property_price scenario_one_year - down_payment scenario_one_year)
    (interest_rate scenario_one_year / lit 100.0 / lit 12.0)
    (loan_term_years scenario_one_year * 12) = Ok payment.
Proof.
  split; [vm_compute; reflexivity|].
  destruct (principal_paydown_spec scenario_one_year)
    as [res [payment [H1 [H2 _]]]].
  - vm_compute. reflexivity.
  - exists res, payment. split; assumption.
Defined.

(** C1 as it is stated, with the principal-and-interest payment alone as
    the outlay, fails: in the one-year scenario the recorded paydown of
    year 1 differs from Operation B on that payment. *)
Lemma principal_paydown_excluding_insurance_fails :
  let s := scenario_one_year in
  let loan := property_price s - down_payment s in
  let rate := interest_rate s / lit 100.0 / lit 12.0 in
  exists res payment p,
    _validate_input s = Ok tt /\
    analyze s = Ok res /\
    _calculate_monthly_payment loan rate (loan_term_years s * 12) = Ok payment /\
    nth_error (PropertyInvestmentResult.yearly_projections res) 0 = Some p /\
    YearlyProjection.principal_paydown p
    <> _calculate_yearly_principal_paydown loan rate payment 1
         (loan_term_years s).
Proof.
  cbv zeta.
  exists (analysis scenario_one_year),
         (monthly_mortgage_payment_of scenario_one_year),
         (year_projection scenario_one_year (loan_amount_of scenario_one_year)
            (- initial_investment_of scenario_one_year) 1).
  split; [exact scenario_one_year_valid|].
  split; [apply analyze_Ok, scenario_one_year_valid|].
  split; [apply (monthly_payment_Ok _ scenario_one_year_valid)|].
  split; [rewrite analysis_projections; reflexivity|].
  apply not_eq_sym, Qclt_not_eq. vm_compute. reflexivity.
Qed.

(** ** Sums *)

Lemma fold_add_acc (l : list Qc) :
  forall a, fold_left add l a = a + fold_left add l 0.
Proof.
  induction l as [|x l IH]; intros a.
  - cbn. ring.
  - cbn [fold_left]. rewrite IH, (IH (add 0 x)). exact_ops. ring.
Qed.

Lemma sum_nil : sum (@nil Qc) = 0.
Proof. reflexivity. Qed.

Lemma sum_cons (x : Qc) (l : list Qc) : sum (x :: l) = x + sum l.
Proof.
  unfold sum. cbn [fold_left]. rewrite of_int_0, fold_add_acc.
  exact_ops. ring.
Qed.

(** ** C4: the summary *)

Lemma final_state_balance (s : PropertyInvestmentInput.t Qc) :
  Loop.remaining_balance (final_state s) =
  last (map (@YearlyProjection.remaining_balance Qc)
          (PropertyInvestmentResult.yearly_projections (analysis s)))
    (loan_amount_of s).
Proof.
  cbn [analysis PropertyInvestmentResult.yearly_projections].
  rewrite final_state_projections.
  unfold final_state. rewrite fold_year_step. reflexivity.
Qed.

(** C4: the summary of a validated scenario.  The upfront investment is
    the down payment plus 1 percent and 1.5 percent of the loan amount
    plus the flat survey fee of 750; the other figures are derived from
    it, from the sums over the projections and from the remaining balance
    after the last year, and the two quotients are taken by nonzero
    divisors. *)
Theorem summary_spec (s : PropertyInvestmentInput.t Qc) :
  _validate_input s = Ok tt ->
  exists res, analyze s = Ok res /\
  let projections := PropertyInvestmentResult.yearly_projections res in
  let sm := PropertyInvestmentResult.summary res in
  let final_remaining_balance :=
    last (map (@YearlyProjection.remaining_balance Qc) projections)
      (InvestmentSummary.loan_amount sm) in
  InvestmentSummary.loan_amount sm = property_price s - down_payment s /\
  InvestmentSummary.initial_investment sm
  = down_payment s + InvestmentSummary.loan_amount sm * lit 0.01
    + InvestmentSummary.loan_amount sm * lit 0.015 + lit 750.0 /\
  InvestmentSummary.total_rental_income sm
  = sum (map (@YearlyProjection.rental_income Qc) projections) /\
  InvestmentSummary.total_expenses sm
  = sum (map (fun p => YearlyExpenses.total (YearlyProjection.expenses p))
           projections) /\
  InvestmentSummary.total_cash_flow sm
  = InvestmentSummary.total_rental_income sm
    - InvestmentSummary.total_expenses sm /\
  InvestmentSummary.total_principal_paydown sm
  = InvestmentSummary.loan_amount sm - final_remaining_balance /\
  InvestmentSummary.final_equity sm
  = down_payment s + InvestmentSummary.total_principal_paydown sm /\
  InvestmentSummary.net_profit sm
  = InvestmentSummary.total_cash_flow sm + InvestmentSummary.final_equity sm
    - InvestmentSummary.initial_investment sm /\
  InvestmentSummary.roi sm
  = InvestmentSummary.net_profit sm / InvestmentSummary.initial_investment sm
    * lit 100.0 /\
  InvestmentSummary.avg_cash_on_cash_return sm
  = InvestmentSummary.total_cash_flow sm / of_int (holding_period_years s)
    / InvestmentSummary.initial_investment sm * lit 100.0 /\
  0 < InvestmentSummary.initial_investment sm /\
  0 < of_int (holding_period_years s).
Proof.
  intros Hvalid. exists (analysis s). split; [apply analyze_Ok, Hvalid|].
  cbv zeta.
  cbn [analysis PropertyInvestmentResult.summary
       PropertyInvestmentResult.yearly_projections
       InvestmentSummary.loan_amount InvestmentSummary.initial_investment
       InvestmentSummary.total_rental_income InvestmentSummary.total_expenses
       InvestmentSummary.total_cash_flow
       InvestmentSummary.total_principal_paydown
       InvestmentSummary.final_equity InvestmentSummary.net_profit
       InvestmentSummary.roi InvestmentSummary.avg_cash_on_cash_return].
  repeat split; try reflexivity.
  - f_equal. apply final_state_balance.
  - apply initial_investment_pos, Hvalid.
  - apply of_int_pos. invariants_of Hvalid. assumption.
Qed.

Lemma summary_spec_witness :
  _validate_input scenario_one_year = Ok tt /\
  exists res, analyze scenario_one_year = Ok res /\
  InvestmentSummary.loan_amount (PropertyInvestmentResult.summary res)
  = property_price scenario_one_year - down_payment scenario_one_year.
Proof.
  split; [vm_compute; reflexivity|].
  destruct (summary_spec scenario_one_year) as [res [H1 [H2 _]]].
  - vm_compute. reflexivity.
  - exists res. split; assumption.
Defined.

(** ** C6: principal conservation *)

Lemma year_projection_balance (s : PropertyInvestmentInput.t Qc) (b c : Qc) (y : Z) :
  YearlyProjection.remaining_balance (year_projection s b c y)
  = b - YearlyProjection.principal_paydown (year_projection s b c y).
Proof. reflexivity. Qed.

Lemma year_projection_cumulative (s : PropertyInvestmentInput.t Qc) (b c : Qc) (y : Z) :
  YearlyProjection.cumulative_cash_flow (year_projection s b c y)
  = c + YearlyProjection.net_cash_flow (year_projection s b c y).
Proof. reflexivity. Qed.

Lemma paydown_conservation (s : PropertyInvestmentInput.t Qc) (years : list Z) :
  forall b c i p,
  nth_error (projections_from s years b c) i = Some p ->
  sum (map (@YearlyProjection.principal_paydown Qc)
         (firstn (S i) (projections_from s years b c)))
  + YearlyProjection.remaining_balance p = b.
Proof.
  induction years as [|y years IH]; intros b c i p Hp.
  - destruct i; discriminate Hp.
  - cbn [projections_from] in *. cbn [firstn map]. rewrite sum_cons.
    destruct i as [|i].
    + cbn in Hp. injection Hp as <-. cbn [firstn map].
      rewrite sum_nil, year_projection_balance. ring.
    + cbn [nth_error] in Hp. apply IH in Hp.
      rewrite <- Qcplus_assoc, Hp, year_projection_balance. ring.
Qed.

Lemma filter_prefix {A : Type} (f : A -> bool) (l : list A) :
  forall n,
  (forall j x, nth_error l j = Some x -> f x = (j <? n)%nat) ->
  filter f l = firstn n l.
Proof.
  induction l as [|x l IH]; intros n H.
  - destruct n; reflexivity.
  - cbn [filter]. rewrite (H 0%nat x eq_refl). destruct n as [|n].
    + cbn. apply (IH 0%nat). intros j x' Hj.
      rewrite (H (S j) x' Hj). reflexivity.
    + cbn. f_equal. apply IH. intros j x' Hj.
      rewrite (H (S j) x' Hj). reflexivity.
Qed.

Lemma analysis_projections_length (s : PropertyInvestmentInput.t Qc) :
  (0 < holding_period_years s)%Z ->
  List.length (PropertyInvestmentResult.yearly_projections (analysis s))
  = Z.to_nat (holding_period_years s).
Proof.
  intros H. rewrite analysis_projections, projections_from_length, range_length.
  f_equal. lia.
Qed.

Lemma within_term_prefix (s : PropertyInvestmentInput.t Qc) :
  (0 < loan_term_years s)%Z ->
  filter (fun q => (YearlyProjection.year q <=? loan_term_years s)%Z)
    (PropertyInvestmentResult.yearly_projections (analysis s))
  = firstn (Z.to_nat (loan_term_years s))
      (PropertyInvestmentResult.yearly_projections (analysis s)).
Proof.
  intros Ht. apply filter_prefix. intros j q Hq.
  apply analysis_projection_nth in Hq. destruct Hq as [b [c ->]].
  rewrite year_projection_year.
  destruct (Nat.ltb_spec j (Z.to_nat (loan_term_years s)));
    [apply Z.leb_le | apply Z.leb_gt]; lia.
Qed.

(** C6: after every year the recorded remaining balance is the loan
    amount minus the paydowns recorded so far; in particular the paydowns
    of the years within the loan term and the balance left after the last
    of those years add up to the loan amount. *)
Theorem principal_conservation (s : PropertyInvestmentInput.t Qc) :
  _validate_input s = Ok tt ->
  exists res, analyze s = Ok res /\
  let projections := PropertyInvestmentResult.yearly_projections res in
  let loan := InvestmentSummary.loan_amount (PropertyInvestmentResult.summary res) in
  (forall i p,
     nth_error projections i = Some p ->
     YearlyProjection.remaining_balance p
     = loan - sum (map (@YearlyProjection.principal_paydown Qc)
                     (firstn (S i) projections))) /\
  (forall i p,
     nth_error projections i = Some p ->
     YearlyProjection.year p
     = Z.min (loan_term_years s) (holding_period_years s) ->
     sum (map (@YearlyProjection.principal_paydown Qc)
            (filter (fun q => (YearlyProjection.year q <=? loan_term_years s)%Z)
               projections))
     + YearlyProjection.remaining_balance p = loan).
Proof.
  intros Hvalid. exists (analysis s). split; [apply analyze_Ok, Hvalid|].
  cbv zeta.
  assert (Hconserve : forall i p,
    nth_error (PropertyInvestmentResult.yearly_projections (analysis s)) i
    = Some p ->
    sum (map (@YearlyProjection.principal_paydown Qc)
           (firstn (S i)
              (PropertyInvestmentResult.yearly_projections (analysis s))))
    + YearlyProjection.remaining_balance p = loan_amount_of s).
  { intros i p. rewrite analysis_projections. apply paydown_conservation. }
  split.
  - intros i p Hp. apply Hconserve in Hp.
    change (InvestmentSummary.loan_amount
              (PropertyInvestmentResult.summary (analysis s)))
      with (loan_amount_of s).
    rewrite <- Hp. ring.
  - intros i p Hp Hy. invariants_of Hvalid.
    rewrite within_term_prefix by assumption.
    pose proof (analysis_projections_length s ltac:(assumption)) as Hlen.
    pose proof (analysis_projection_nth s i p Hp) as [b [c Hpc]].
    rewrite Hpc, year_projection_year in Hy.
    destruct (Z.le_gt_cases (loan_term_years s) (holding_period_years s)).
    + replace (Z.to_nat (loan_term_years s)) with (S i) by lia.
      apply Hconserve, Hp.
    + rewrite firstn_all2 by lia.
      rewrite <- (firstn_all2 (n := S i)
                    (PropertyInvestmentResult.yearly_projections (analysis s)))
        by lia.
      apply Hconserve, Hp.
Qed.

Lemma principal_conservation_witness :
  _validate_input scenario_one_year = Ok tt /\
  exists res, analyze scenario_one_year = Ok res /\
  forall i p,
    nth_error (PropertyInvestmentResult.yearly_projections res) i = Some p ->
    YearlyProjection.remaining_balance p
    = InvestmentSummary.loan_amount (PropertyInvestmentResult.summary res)
      - sum (map (@YearlyProjection.principal_paydown Qc)
               (firstn (S i) (PropertyInvestmentResult.yearly_projections res))).
Proof.
  split; [vm_compute; reflexivity|].
  destruct (principal_conservation scenario_one_year) as [res [H1 [H2 _]]].
  - vm_compute. reflexivity.
  - exists res. split; assumption.
Defined.

(** ** C8: cumulative cash flow and the break-even marker *)

Lemma cumulative_sum (s : PropertyInvestmentInput.t Qc) (years : list Z) :
  forall b c i p,
  nth_error (projections_from s years b c) i = Some p ->
  YearlyProjection.cumulative_cash_flow p
  = c + sum (map (@YearlyProjection.net_cash_flow Qc)
               (firstn (S i) (projections_from s years b c))).
Proof.
  induction years as [|y years IH]; intros b c i p Hp.
  - destruct i; discriminate Hp.
  - cbn [projections_from] in *. cbn [firstn map]. rewrite sum_cons.
    destruct i as [|i].
    + cbn in Hp. injection Hp as <-. cbn [firstn map].
      rewrite sum_nil, year_projection_cumulative. ring.
    + cbn [nth_error] in Hp. apply IH in Hp.
      rewrite Hp, year_projection_cumulative. ring.
Qed.


Lemma year_body_marker {num : Type} {A : Arith num}
  (input_data : PropertyInvestmentInput.t num)
  (loan_amount monthly_rate total_monthly_mortgage : num)
  (st st' : Loop.t num) (year : Z) :
  year_body input_data loan_amount monthly_rate total_monthly_mortgage st year
  = Ok st' ->
  match Loop.break_even_year st with
  | Some y => Loop.break_even_year st' = Some y
  | None =>
    Loop.break_even_year st'
    = if le (of_int 0) (Loop.cumulative_cash_flow st') then Some year else None
  end.
Proof.
  unfold year_body. intros H.
  repeat match type of H with
         | bind ?m _ = _ => destruct m; cbn [bind] in H; [|discriminate H]
         end.
  injection H as <-. cbn [Loop.break_even_year Loop.cumulative_cash_flow].
  destruct (Loop.break_even_year st); reflexivity.
Qed.



(** ** C10: the paydown is never negative *)

Lemma Qcdiv_pos (x y : Qc) : 0 < x -> 0 < y -> 0 < x / y.
Proof. intros Hx Hy. qc2q. apply Qlt_shift_div_l; lra. Qed.

(** The annuity payment exceeds the interest on the whole principal. *)
Lemma annuity_exceeds_interest (principal rate : Qc) (n : nat) :
  0 < principal -> 0 < rate -> (0 < n)%nat ->
  principal * rate
  < principal * (rate * (1 + rate) ^ n) / ((1 + rate) ^ n - 1).
Proof.
  intros HL Hr Hn.
  assert (HX : 1 < (1 + rate) ^ n)
    by (apply Qcpower_gt_1; [qc2q; lra | exact Hn]).
  set (X := (1 + rate) ^ n) in *.
  assert (HD : X - 1 <> 0) by (intros H; apply Qcminus_eq_0 in H; rewrite H in HX; discriminate HX).
  set (P := principal * (rate * X) / (X - 1)).
  assert (HP : P * (X - 1) = principal * rate * (X - 1) + principal * rate)
    by (unfold P; field; exact HD).
  assert (Ha : 0 < principal * rate) by (qc2q; nra).
  clearbody P. set (a := principal * rate) in *. clearbody a.
  qc2q. nra.
Qed.

Section MonthLoop.
Variables loan rate outlay : Qc.
Hypothesis Hrate : 0 < rate.
Hypothesis Houtlay : loan * rate < outlay.

Lemma principal_payment_pos (balance : Qc) :
  balance <= loan -> 0 < outlay - balance * rate.
Proof. intros Hb. qc2q. nra. Qed.

Lemma month_loop_ge (months : nat) :
  forall balance paid,
  balance <= loan -> paid <= month_loop months rate outlay balance paid.
Proof.
  induction months as [|months IH]; intros balance paid Hb.
  - apply Qcle_refl.
  - cbn [month_loop]. destruct (le balance (of_int 0)); [apply Qcle_refl|].
    pose proof (principal_payment_pos balance Hb) as Hp.
    apply Qcle_trans with (add paid (sub outlay (mul balance rate))).
    + exact_ops. qc2q. lra.
    + apply IH. exact_ops. qc2q. lra.
Qed.

Lemma month_loop_gt (months : nat) (balance paid : Qc) :
  0 < balance -> balance <= loan ->
  paid < month_loop (S months) rate outlay balance paid.
Proof.
  intros Hpos Hb. cbn [month_loop].
  replace (le balance (of_int 0)) with false
    by (symmetry; apply le_false_iff; exact Hpos).
  pose proof (principal_payment_pos balance Hb) as Hp.
  apply Qclt_le_trans with (add paid (sub outlay (mul balance rate))).
  - exact_ops. qc2q. lra.
  - apply month_loop_ge. exact_ops. qc2q. lra.
Qed.

Lemma paydown_nonneg (balance : Qc) (year term : Z) :
  balance <= loan ->
  0 <= _calculate_yearly_principal_paydown balance rate outlay year term.
Proof.
  intros Hb. unfold _calculate_yearly_principal_paydown.
  destruct (term <? year)%Z; rewrite lit_0.
  - apply Qcle_refl.
  - apply month_loop_ge, Hb.
Qed.

End MonthLoop.

Lemma outlay_exceeds_interest (s : PropertyInvestmentInput.t Qc) :
  _validate_input s = Ok tt ->
  loan_amount_of s * monthly_rate_of s < monthly_mortgage_payment_of s
  /\ monthly_mortgage_payment_of s < total_monthly_mortgage_of s.
Proof.
  intros Hvalid.
  pose proof (loan_amount_pos s Hvalid) as HL.
  pose proof (monthly_rate_pos s Hvalid) as Hr.
  pose proof (num_payments_pos s Hvalid) as Hn.
  split.
  - apply annuity_exceeds_interest; [exact HL | exact Hr | lia].
  - unfold total_monthly_mortgage_of.
    assert (Hi : 0 < monthly_life_insurance_of s).
    { unfold monthly_life_insurance_of. apply Qcdiv_pos.
      - exact_ops. qc2q. nra.
      - reflexivity. }
    qc2q. lra.
Qed.

Lemma projections_bounded (s : PropertyInvestmentInput.t Qc) :
  _validate_input s = Ok tt ->
  forall years b c p,
  b <= loan_amount_of s ->
  In p (projections_from s years b c) ->
  0 <= YearlyProjection.principal_paydown p
  /\ YearlyProjection.remaining_balance p <= loan_amount_of s.
Proof.
  intros Hvalid.
  destruct (outlay_exceeds_interest s Hvalid) as [H1 H2].
  assert (Hout : loan_amount_of s * monthly_rate_of s
                 < total_monthly_mortgage_of s)
    by (eapply Qclt_trans; eassumption).
  induction years as [|y years IH]; intros b c p Hb Hp; [destruct Hp|].
  cbn [projections_from] in Hp.
  assert (Hpd : 0 <= YearlyProjection.principal_paydown
                       (year_projection s b c y)).
  { apply (paydown_nonneg (loan_amount_of s)); try assumption.
    apply monthly_rate_pos, Hvalid. }
  assert (Hrem : YearlyProjection.remaining_balance (year_projection s b c y)
                 <= loan_amount_of s).
  { rewrite year_projection_balance. qc2q. lra. }
  destruct Hp as [<- | Hp].
  - split; assumption.
  - apply (IH _ _ _ Hrem Hp).
Qed.

(** C10: on a validated scenario the level payment exceeds the interest
    on any balance up to the loan amount, so every monthly principal
    portion of a positive balance is positive; every recorded paydown is
    non-negative and no recorded remaining balance exceeds the loan
    amount. *)
Theorem paydown_nonnegative (s : PropertyInvestmentInput.t Qc) :
  _validate_input s = Ok tt ->
  exists res payment, analyze s = Ok res /\
  let loan := InvestmentSummary.loan_amount (PropertyInvestmentResult.summary res) in
  let rate := interest_rate s / lit 100.0 / lit 12.0 in
  let outlay :=
    MortgageDetails.monthly_payment (PropertyInvestmentResult.mortgage res) in
  _calculate_monthly_payment loan rate (loan_term_years s * 12) = Ok payment /\
  payment < outlay /\
  (forall balance, balance <= loan -> 0 < payment - balance * rate) /\
  (forall p, In p (PropertyInvestmentResult.yearly_projections res) ->
     0 <= YearlyProjection.principal_paydown p /\
     YearlyProjection.remaining_balance p <= loan) /\
  (forall balance year,
     (loan_term_years s < year)%Z \/ balance <= 0 ->
     _calculate_yearly_principal_paydown balance rate outlay year
       (loan_term_years s) = 0).
Proof.
  intros Hvalid.
  exists (analysis s), (monthly_mortgage_payment_of s).
  split; [apply analyze_Ok, Hvalid|]. cbv zeta.
  destruct (outlay_exceeds_interest s Hvalid) as [H1 H2].
  pose proof (monthly_rate_pos s Hvalid) as Hr.
  split; [apply (monthly_payment_Ok s Hvalid)|].
  split; [exact H2|].
  split; [|split].
  - intros balance Hb.
    apply (principal_payment_pos (loan_amount_of s)); assumption.
  - intros p Hp. rewrite analysis_projections in Hp.
    apply (projections_bounded s Hvalid _ _ _ p (Qcle_refl _) Hp).
  - intros balance year [Hy | Hb].
    + apply paydown_beyond_term, Hy.
    + unfold _calculate_yearly_principal_paydown.
      destruct (loan_term_years s <? year)%Z; [apply lit_0|].
      cbn [month_loop]. apply (le_iff balance 0) in Hb.
      rewrite of_int_0, Hb. apply lit_0.
Qed.

Lemma paydown_nonnegative_witness :
  _validate_input scenario_one_year = Ok tt /\
  exists res, analyze scenario_one_year = Ok res /\
  forall p, In p (PropertyInvestmentResult.yearly_projections res) ->
    0 <= YearlyProjection.principal_paydown p /\
    YearlyProjection.remaining_balance p
    <= InvestmentSummary.loan_amount (PropertyInvestmentResult.summary res).
Proof.
  split; [vm_compute; reflexivity|].
  destruct (paydown_nonnegative scenario_one_year)
    as [res [payment [H1 [_ [_ [_ [H2 _]]]]]]].
  - vm_compute. reflexivity.
  - exists res. split; assumption.
Defined.

(** ** C7: interest and principal from year to year *)

Section Replay.
Variables loan rate outlay : Qc.
Hypothesis Hrate : 0 < rate.
Hypothesis Houtlay : loan * rate < outlay.

(** While the balance that is left stays positive, no month is skipped. *)
Lemma full_replay (months : nat) :
  forall balance paid charged,
  balance <= loan ->
  0 < balance - (month_loop months rate outlay balance paid - paid) ->
  month_loop months rate outlay balance paid
  = paid + (balance - balance_after rate outlay months balance)
  /\ month_interest months rate outlay balance charged
     = charged + (of_int (Z.of_nat months) * outlay
                  - (balance - balance_after rate outlay months balance)).
Proof.
  induction months as [|months IH]; intros balance paid charged Hb Hleft.
  - cbn [month_loop month_interest balance_after].
    change (of_int (Z.of_nat 0)) with 0. split; ring.
  - cbn [month_loop month_interest balance_after] in *.
    rewrite of_int_0 in *.
    destruct (le balance 0) eqn:E.
    + apply le_iff in E. exfalso. qc2q. lra.
    + pose proof (principal_payment_pos loan rate outlay Hrate Houtlay
                    balance Hb) as Hp.
      rewrite of_int_succ. exact_ops.
      destruct (IH (balance - (outlay - balance * rate))
                  (paid + (outlay - balance * rate))
                  (charged + balance * rate)) as [IH1 IH2].
      * qc2q. lra.
      * qc2q. lra.
      * rewrite IH1, IH2. split; ring.
Qed.

Lemma replay_year (balance : Qc) :
  balance - balance_after rate outlay 12 balance
  = ((1 + rate) ^ 12 - 1) * (outlay / rate - balance).
Proof.
  assert (Hr : rate <> 0) by (apply not_eq_sym, Qclt_not_eq, Hrate).
  rewrite balance_after_closed by exact Hr. field. exact Hr.
Qed.

(** Two consecutive years replayed in full: the later year retires more
    principal, is charged less interest, and leaves a smaller balance. *)
Lemma consecutive_years (balance : Qc) :
  balance <= loan ->
  let paid1 := month_loop 12 rate outlay balance 0 in
  let paid2 := month_loop 12 rate outlay (balance - paid1) 0 in
  0 < balance - paid1 - paid2 ->
  paid1 < paid2
  /\ month_interest 12 rate outlay (balance - paid1) 0
     < month_interest 12 rate outlay balance 0
  /\ balance - paid1 - paid2 < balance - paid1.
Proof.
  intros Hb paid1 paid2 Hleft.
  assert (H1 : 0 <= paid1) by (apply (month_loop_ge loan); assumption).
  assert (Hb1 : balance - paid1 <= loan) by (qc2q; lra).
  assert (H2 : 0 <= paid2) by (apply (month_loop_ge loan); assumption).
  destruct (full_replay 12 balance 0 0 Hb) as [E1 I1].
  { fold paid1. qc2q. lra. }
  destruct (full_replay 12 (balance - paid1) 0 0 Hb1) as [E2 I2].
  { fold paid2. qc2q. lra. }
  fold paid1 in E1. fold paid2 in E2. rewrite I1, I2.
  rewrite replay_year in E1, E2 |- *. rewrite replay_year.
  assert (HX : 1 < (1 + rate) ^ 12)
    by (apply Qcpower_gt_1; [qc2q; lra | lia]).
  assert (HK : outlay / rate * rate = outlay)
    by (field; apply not_eq_sym, Qclt_not_eq, Hrate).
  set (X := (1 + rate) ^ 12) in *. set (K := outlay / rate) in *.
  set (T := of_int (Z.of_nat 12) * outlay).
  clearbody X K T paid1 paid2.
  assert (HKb : balance < K) by (qc2q; nra).
  assert (Hp1 : 0 < paid1) by (qc2q; nra).
  assert (Hp2 : paid1 < paid2) by (qc2q; nra).
  split; [exact Hp2|]. qc2q. split; nra.
Qed.

End Replay.

Lemma analysis_projection_carried (s : PropertyInvestmentInput.t Qc) (i : nat)
  (p : YearlyProjection.t Qc) :
  _validate_input s = Ok tt ->
  nth_error (PropertyInvestmentResult.yearly_projections (analysis s)) i = Some p ->
  exists b c, b <= loan_amount_of s /\ p = year_projection s b c (Z.of_nat (S i)).
Proof.
  intros Hvalid Hp. rewrite analysis_projections in Hp. destruct i as [|i].
  - apply projections_from_head in Hp. destruct Hp as [y [Hy ->]].
    apply range_nth_error in Hy. subst y.
    do 2 eexists. split; [apply Qcle_refl | reflexivity].
  - destruct (nth_error_pred _ _ _ Hp) as [q Hq].
    destruct (projections_from_succ _ _ _ _ _ _ _ Hq Hp) as [y [Hy ->]].
    apply range_nth_error in Hy. subst y.
    do 2 eexists. split.
    + apply (projections_bounded s Hvalid
               (range 1 (holding_period_years s + 1)) (loan_amount_of s)
               (- initial_investment_of s) q (Qcle_refl _)).
      eapply nth_error_In, Hq.
    + f_equal. lia.
Qed.

(** C7, as the code has it: the recorded remaining balance is strictly
    smaller after a year within the loan term that starts with a positive
    balance; and for two consecutive years within the loan term after
    which a positive balance is left, the later year retires more
    principal and is charged less interest. *)
Theorem amortization_monotone (s : PropertyInvestmentInput.t Qc) :
  _validate_input s = Ok tt ->
  exists res, analyze s = Ok res /\
  let projections := PropertyInvestmentResult.yearly_projections res in
  let rate := interest_rate s / lit 100.0 / lit 12.0 in
  let outlay :=
    MortgageDetails.monthly_payment (PropertyInvestmentResult.mortgage res) in
  let term := loan_term_years s in
  (forall i q p,
     nth_error projections i = Some q ->
     nth_error projections (S i) = Some p ->
     (YearlyProjection.year p <= term)%Z ->
     0 < YearlyProjection.remaining_balance q ->
     YearlyProjection.remaining_balance p
     < YearlyProjection.remaining_balance q) /\
  (forall i q p,
     nth_error projections i = Some q ->
     nth_error projections (S i) = Some p ->
     (YearlyProjection.year p <= term)%Z ->
     0 < YearlyProjection.remaining_balance p ->
     YearlyProjection.principal_paydown q < YearlyProjection.principal_paydown p
     /\ yearly_interest rate outlay term p < yearly_interest rate outlay term q
     /\ YearlyProjection.remaining_balance p
        < YearlyProjection.remaining_balance q).
Proof.
  intros Hvalid. exists (analysis s). split; [apply analyze_Ok, Hvalid|].
  cbv zeta.
  destruct (outlay_exceeds_interest s Hvalid) as [H1 H2].
  assert (Hout : loan_amount_of s * monthly_rate_of s
                 < total_monthly_mortgage_of s)
    by (eapply Qclt_trans; eassumption).
  pose proof (monthly_rate_pos s Hvalid) as Hr.
  split; intros i q p Hq Hp Hterm Hleft;
    destruct (analysis_projection_carried s i q Hvalid Hq) as [b [c [Hb Eq]]];
    rewrite analysis_projections in Hq, Hp;
    destruct (projections_from_succ _ _ _ _ _ _ _ Hq Hp) as [y [Hy Ep]];
    apply range_nth_error in Hy;
    assert (Hy' : y = (Z.of_nat (S i) + 1)%Z) by lia; clear Hy; subst y;
    rewrite Ep, year_projection_year in Hterm.
  { assert (Hqb : YearlyProjection.remaining_balance q <= loan_amount_of s).
    { apply (projections_bounded s Hvalid
               (range 1 (holding_period_years s + 1)) (loan_amount_of s)
               (- initial_investment_of s) q (Qcle_refl _)).
      eapply nth_error_In, Hq. }
    rewrite Ep, year_projection_balance.
    cbn [year_projection YearlyProjection.principal_paydown].
    rewrite paydown_within_term by lia.
    pose proof (month_loop_gt (loan_amount_of s) (monthly_rate_of s)
                  (total_monthly_mortgage_of s) Hr Hout 11
                  (YearlyProjection.remaining_balance q) 0 Hleft Hqb) as Hgt.
    qc2q. lra. }
  pose proof (consecutive_years (loan_amount_of s) (monthly_rate_of s)
                (total_monthly_mortgage_of s) Hr Hout b Hb) as Hc.
  cbv zeta in Hc.
  assert (Pq : YearlyProjection.principal_paydown q
               = month_loop 12 (monthly_rate_of s)
                   (total_monthly_mortgage_of s) b 0).
  { rewrite Eq. cbn [year_projection YearlyProjection.principal_paydown].
    apply paydown_within_term. lia. }
  assert (Rq : YearlyProjection.remaining_balance q
               = b - YearlyProjection.principal_paydown q)
    by (rewrite Eq; reflexivity).
  assert (Pp : YearlyProjection.principal_paydown p
               = month_loop 12 (monthly_rate_of s)
                   (total_monthly_mortgage_of s)
                   (YearlyProjection.remaining_balance q) 0).
  { rewrite Ep. cbn [year_projection YearlyProjection.principal_paydown].
    apply paydown_within_term. lia. }
  assert (Rp : YearlyProjection.remaining_balance p
               = YearlyProjection.remaining_balance q
                 - YearlyProjection.principal_paydown p)
    by (rewrite Ep; reflexivity).
  assert (Yq : YearlyProjection.year q = Z.of_nat (S i))
    by (rewrite Eq; reflexivity).
  assert (Yp : YearlyProjection.year p = (Z.of_nat (S i) + 1)%Z)
    by (rewrite Ep; reflexivity).
  unfold yearly_interest. rewrite Yq, Yp.
  replace (loan_term_years s <? Z.of_nat (S i))%Z with false
    by (symmetry; apply Z.ltb_ge; lia).
  replace (loan_term_years s <? Z.of_nat (S i) + 1)%Z with false
    by (symmetry; apply Z.ltb_ge; lia).
  change (MortgageDetails.monthly_payment
            (PropertyInvestmentResult.mortgage (analysis s)))
    with (total_monthly_mortgage_of s).
  change (interest_rate s / lit 100.0 / lit 12.0) with (monthly_rate_of s).
  replace (YearlyProjection.remaining_balance q
           + YearlyProjection.principal_paydown q) with b
    by (rewrite Rq; ring).
  replace (YearlyProjection.remaining_balance p
           + YearlyProjection.principal_paydown p)
    with (YearlyProjection.remaining_balance q)
    by (rewrite Rp; ring).
  rewrite Rp, Pp, Rq, Pq. rewrite Rp, Pp, Rq, Pq in Hleft.
  apply Hc. exact Hleft.
Qed.

Lemma amortization_monotone_witness :
  _validate_input scenario_three_years = Ok tt /\
  exists res q p,
    analyze scenario_three_years = Ok res /\
    nth_error (PropertyInvestmentResult.yearly_projections res) 0 = Some q /\
    nth_error (PropertyInvestmentResult.yearly_projections res) 1 = Some p /\
    YearlyProjection.principal_paydown q < YearlyProjection.principal_paydown p /\
    YearlyProjection.remaining_balance p < YearlyProjection.remaining_balance q.
Proof.
  assert (Hvalid : _validate_input scenario_three_years = Ok tt)
    by (vm_compute; reflexivity).
  split; [exact Hvalid|].
  destruct (amortization_monotone scenario_three_years Hvalid)
    as [res [Hres [_ Hmono]]].
  cbv zeta in Hmono.
  set (q := year_projection scenario_three_years
              (loan_amount_of scenario_three_years)
              (- initial_investment_of scenario_three_years) 1).
  set (p := year_projection scenario_three_years
              (YearlyProjection.remaining_balance q)
              (YearlyProjection.cumulative_cash_flow q) 2).
  rewrite (analyze_Ok _ Hvalid) in Hres. injection Hres as <-.
  assert (Hq : nth_error (PropertyInvestmentResult.yearly_projections
                            (analysis scenario_three_years)) 0 = Some q)
    by (rewrite analysis_projections; reflexivity).
  assert (Hp : nth_error (PropertyInvestmentResult.yearly_projections
                            (analysis scenario_three_years)) 1 = Some p)
    by (rewrite analysis_projections; reflexivity).
  exists (analysis scenario_three_years), q, p.
  split; [apply analyze_Ok, Hvalid|].
  split; [exact Hq|]. split; [exact Hp|].
  destruct (Hmono 0%nat q p Hq Hp) as [H1 [_ H3]].
  - vm_compute. discriminate.
  - vm_compute. reflexivity.
  - split; assumption.
Defined.

Lemma scenario_two_years_valid : _validate_input scenario_two_years = Ok tt.
Proof. vm_compute. reflexivity. Qed.

(** C7 as it is stated fails: the insurance charge is part of the outlay
    that is replayed, so the balance is used up before the term ends, and
    the paydown of the year in which this happens is followed by a smaller
    one. *)
Lemma principal_not_increasing :
  let s := scenario_two_years in
  exists res q p,
    _validate_input s = Ok tt /\
    (holding_period_years s <= loan_term_years s)%Z /\
    0 < interest_rate s /\
    analyze s = Ok res /\
    nth_error (PropertyInvestmentResult.yearly_projections res) 0 = Some q /\
    nth_error (PropertyInvestmentResult.yearly_projections res) 1 = Some p /\
    ~ YearlyProjection.principal_paydown q < YearlyProjection.principal_paydown p.
Proof.
  cbv zeta.
  set (q := year_projection scenario_two_years
              (loan_amount_of scenario_two_years)
              (- initial_investment_of scenario_two_years) 1).
  set (p := year_projection scenario_two_years
              (YearlyProjection.remaining_balance q)
              (YearlyProjection.cumulative_cash_flow q) 2).
  exists (analysis scenario_two_years), q, p.
  split; [exact scenario_two_years_valid|].
  split; [vm_compute; discriminate|].
  split; [reflexivity|].
  split; [apply analyze_Ok, scenario_two_years_valid|].
  rewrite analysis_projections.
  split; [reflexivity|]. split; [reflexivity|].
  apply Qcle_not_lt. vm_compute. discriminate.
Qed.

(** ** C9: errors other than validation errors *)

(** In the exact reading [analyze] returns on every validated scenario:
    the payment count, the annuity denominator, the holding period and the
    upfront investment are all nonzero. *)
Lemma analyze_total_exact (s : PropertyInvestmentInput.t Qc) :
  _validate_input s = Ok tt ->
  (loan_term_years s * 12 <> 0)%Z
  /\ (1 + monthly_rate_of s) ^ Z.to_nat (loan_term_years s * 12) - 1 <> 0
  /\ of_int (holding_period_years s) <> 0
  /\ 0 < initial_investment_of s
  /\ exists res, analyze s = Ok res.
Proof.
  intros Hvalid. pose proof (num_payments_pos s Hvalid) as Hn.
  unfold num_payments_of in Hn.
  split; [lia|]. split; [|split; [|split]].
  - intros H. apply Qcminus_eq_0 in H.
    assert (HX : 1 < (1 + monthly_rate_of s) ^ Z.to_nat (loan_term_years s * 12)).
    { apply Qcpower_gt_1; [|lia].
      pose proof (monthly_rate_pos s Hvalid). qc2q. lra. }
    rewrite H in HX. discriminate HX.
  - apply of_int_nonzero. invariants_of Hvalid. lia.
  - apply initial_investment_pos, Hvalid.
  - exists (analysis s). apply analyze_Ok, Hvalid.
Qed.

(** C9 fails in binary64 arithmetic.  The scenario passes validation and
    its monthly rate is not zero, so the zero-rate branch of the payment
    is not taken; but [1 + monthly_rate] rounds to 1, the annuity
    denominator [(1 + monthly_rate) ** 240 - 1] is zero, and the division
    raises ZeroDivisionError. *)
Theorem analyze_tiny_rate_raises :
  _validate_input Binary64.scenario_tiny_rate = Ok tt
  /\ (exists monthly_rate,
        bind (div (interest_rate Binary64.scenario_tiny_rate) (lit 100.0))
          (fun r100 => div r100 (lit 12.0)) = Ok monthly_rate
        /\ eqb monthly_rate (lit 0.0) = false
        /\ eqb (add (of_int 1) monthly_rate) (of_int 1) = true)
  /\ analyze Binary64.scenario_tiny_rate = Raise ZeroDivisionError.
Proof.
  split; [vm_compute; reflexivity|]. split.
  - eexists. split; [vm_compute; reflexivity|].
    split; vm_compute; reflexivity.
  - vm_compute. reflexivity.
Qed.

(** The scenario of the stored reference values (240000 at 3.5 percent
    over 20 years, held for 20 years), evaluated in binary64: the balance
    is used up in year 19, whose paydown is smaller than that of year 18,
    and the paydown of year 20 is zero. *)
Lemma reference_paydown_drops :
  match analyze Binary64.scenario_reference with
  | Ok res =>
    match skipn 17 (PropertyInvestmentResult.yearly_projections res) with
    | [p18; p19; p20] =>
      lt (YearlyProjection.principal_paydown p19)
         (YearlyProjection.principal_paydown p18) = true
      /\ lt (YearlyProjection.remaining_balance p19) (of_int 0) = true
      /\ eqb (YearlyProjection.principal_paydown p20) (of_int 0) = true
    | _ => False
    end
  | Raise _ => False
  end.
Proof. vm_compute. repeat split. Qed.

(** A second error of this kind: the rent multiplier of year 79,
    [10001 ** 78], exceeds the range of binary64 and the power raises
    OverflowError. *)
Lemma analyze_steep_growth_raises :
  _validate_input Binary64.scenario_steep_growth = Ok tt
  /\ analyze Binary64.scenario_steep_growth = Raise OverflowError.
Proof. split; vm_compute; reflexivity. Qed.

(** * Further properties of the engine *)

(** ** The shape of a result, in any arithmetic *)

Section Shape.
Context {num : Type} {A : Arith num}.

Lemma year_body_shape (input_data : PropertyInvestmentInput.t num)
  (loan_amount monthly_rate total_monthly_mortgage : num)
  (st st' : Loop.t num) (year : Z) :
  year_body input_data loan_amount monthly_rate total_monthly_mortgage st year
  = Ok st' ->
  exists p,
    Loop.yearly_projections st' = Loop.yearly_projections st ++ [p]
    /\ YearlyProjection.year p = year.
Proof.
  unfold year_body. intros H.
  repeat match type of H with
         | bind ?m _ = _ => destruct m; cbn [bind] in H; [|discriminate H]
         end.
  injection H as <-. eexists. split; reflexivity.
Qed.

Lemma year_loop_shape (input_data : PropertyInvestmentInput.t num)
  (loan_amount monthly_rate total_monthly_mortgage : num) (years : list Z) :
  forall st st',
  year_loop input_data loan_amount monthly_rate total_monthly_mortgage years st
  = Ok st' ->
  exists new,
    Loop.yearly_projections st' = Loop.yearly_projections st ++ new
    /\ map (@YearlyProjection.year num) new = years.
Proof.
  induction years as [|y years IH]; intros st st' H.
  - cbn in H. injection H as <-. exists []. rewrite app_nil_r.
    split; reflexivity.
  - cbn [year_loop] in H.
    destruct (year_body input_data loan_amount monthly_rate
                total_monthly_mortgage st y) as [st1|e] eqn:E;
      cbn [bind] in H; [|discriminate H].
    destruct (year_body_shape _ _ _ _ _ _ _ E) as [p [Hp Hy]].
    destruct (IH _ _ H) as [new [Hnew Hys]].
    exists (p :: new). split.
    + rewrite Hnew, Hp, <- app_assoc. reflexivity.
    + cbn [map]. rewrite Hy, Hys. reflexivity.
Qed.

Lemma analyze_input (input_data : PropertyInvestmentInput.t num)
  (res : PropertyInvestmentResult.t num) :
  analyze input_data = Ok res ->
  PropertyInvestmentResult.input res = input_data.
Proof.
  unfold analyze. intros H.
  repeat match type of H with
         | bind ?m _ = _ => destruct m; cbn [bind] in H; [|discriminate H]
         end.
  injection H as <-. reflexivity.
Qed.

(** Whenever [analyze] returns a result, in whatever arithmetic, the input
    had passed validation, the result carries the input unchanged, and the
    projections are those of the years 1, 2, ..., [holding_period_years],
    in this order. *)
Theorem analyze_result_shape (input_data : PropertyInvestmentInput.t num)
  (res : PropertyInvestmentResult.t num) :
  analyze input_data = Ok res ->
  _validate_input input_data = Ok tt
  /\ PropertyInvestmentResult.input res = input_data
  /\ map (@YearlyProjection.year num)
       (PropertyInvestmentResult.yearly_projections res)
     = range 1 (holding_period_years input_data + 1)
  /\ List.length (PropertyInvestmentResult.yearly_projections res)
     = Z.to_nat (holding_period_years input_data).
Proof.
  unfold analyze. intros H.
  destruct (_validate_input input_data) as [[]|e]; cbn [bind] in H;
    [|discriminate H].
  repeat match type of H with
         | bind ?m _ = _ =>
           let E := fresh "E" in
           destruct m eqn:E; cbn [bind] in H; [|discriminate H]
         end.
  injection H as <-.
  cbn [PropertyInvestmentResult.input PropertyInvestmentResult.yearly_projections].
  match goal with
  | E : year_loop _ _ _ _ _ _ = Ok _ |- _ =>
    destruct (year_loop_shape _ _ _ _ _ _ _ E) as [new [Hnew Hys]]
  end.
  cbn [Loop.yearly_projections app] in Hnew. rewrite Hnew.
  repeat split; try assumption.
  rewrite <- (length_map (@YearlyProjection.year num)), Hys, range_length.
  f_equal. lia.
Qed.

End Shape.

Lemma analyze_result_shape_witness :
  exists res,
    analyze Binary64.scenario_reference = Ok res
    /\ PropertyInvestmentResult.input res = Binary64.scenario_reference
    /\ List.length (PropertyInvestmentResult.yearly_projections res) = 20%nat.
Proof.
  destruct (analyze Binary64.scenario_reference) as [res|e] eqn:E.
  - exists res. split; [reflexivity|].
    destruct (analyze_result_shape _ _ E) as [_ [H1 [_ H2]]].
    split; assumption.
  - vm_compute in E. discriminate E.
Defined.

(** ** Where an exception of [analyze] comes from *)

Section Origin.
Context {num : Type} {A : Arith num}.
Variable P : exn -> Prop.
Hypothesis div_not_P : forall x y e, div x y = Raise e -> ~ P e.
Hypothesis pow_not_P : forall x n e, pow x n = Raise e -> ~ P e.

Ltac step_bind H tac :=
  match type of H with
  | bind ?m _ = Raise _ =>
    let E := fresh "E" in
    destruct m eqn:E; cbn [bind] in H;
    [| injection H as ->; solve [tac E] ]
  end.

Lemma monthly_payment_origin (principal monthly_rate : num) (n : Z) (e : exn) :
  _calculate_monthly_payment principal monthly_rate n = Raise e -> ~ P e.
Proof.
  unfold _calculate_monthly_payment. intros H HP.
  destruct (eqb monthly_rate (lit 0.0)); [exact (div_not_P _ _ _ H HP)|].
  repeat step_bind H ltac:(fun E => exact (pow_not_P _ _ _ E HP)).
  exact (div_not_P _ _ _ H HP).
Qed.

Lemma year_body_origin (input_data : PropertyInvestmentInput.t num)
  (loan_amount monthly_rate total_monthly_mortgage : num)
  (st : Loop.t num) (year : Z) (e : exn) :
  year_body input_data loan_amount monthly_rate total_monthly_mortgage st year
  = Raise e -> ~ P e.
Proof.
  unfold year_body. intros H HP.
  repeat step_bind H
    ltac:(fun E => first [ exact (div_not_P _ _ _ E HP)
                         | exact (pow_not_P _ _ _ E HP) ]).
  discriminate H.
Qed.

Lemma year_loop_origin (input_data : PropertyInvestmentInput.t num)
  (loan_amount monthly_rate total_monthly_mortgage : num) (years : list Z) :
  forall st e,
  year_loop input_data loan_amount monthly_rate total_monthly_mortgage years st
  = Raise e -> ~ P e.
Proof.
  induction years as [|y years IH]; intros st e H; [discriminate H|].
  cbn [year_loop] in H.
  destruct (year_body input_data loan_amount monthly_rate
              total_monthly_mortgage st y) as [st1|e1] eqn:E;
    cbn [bind] in H.
  - exact (IH _ _ H).
  - injection H as ->. exact (year_body_origin _ _ _ _ _ _ _ E).
Qed.

Lemma analyze_origin (input_data : PropertyInvestmentInput.t num) (e : exn) :
  analyze input_data = Raise e -> P e -> _validate_input input_data = Raise e.
Proof.
  unfold analyze. intros H HP.
  destruct (_validate_input input_data) as [[]|e0]; cbn [bind] in H;
    [exfalso | injection H as ->; reflexivity].
  repeat step_bind H
    ltac:(fun E => first [ exact (div_not_P _ _ _ E HP)
                         | exact (monthly_payment_origin _ _ _ _ E HP)
                         | exact (year_loop_origin _ _ _ _ _ _ _ E HP) ]).
  discriminate H.
Qed.

End Origin.

Lemma float_div_raises (x y : float) (e : exn) :
  div x y = Raise e -> e = ZeroDivisionError.
Proof.
  cbn [div float_arith]. unfold float_div.
  destruct (PrimFloat.eqb y 0); intros H; [injection H as <-; reflexivity|].
  discriminate H.
Qed.

Lemma float_pow_raises (x : float) (n : Z) (e : exn) :
  pow x n = Raise e -> e = ZeroDivisionError \/ e = OverflowError.
Proof.
  cbn [pow float_arith]. unfold float_pow. intros H.
  destruct n;
    repeat match type of H with
           | (if ?c then _ else _) = _ => destruct c
           | (let r := _ in _) = _ => cbv zeta in H
           end;
    try discriminate H; injection H as <-; auto.
Qed.



Lemma validate_input_raises {num : Type} {A : Arith num}
  (input_data : PropertyInvestmentInput.t num) (e : exn) :
  _validate_input input_data = Raise e -> exists msg, e = ValueError msg.
Proof.
  unfold _validate_input. intros H.
  repeat (match type of H with
          | context [raise_if ?c _] => destruct c; cbn [raise_if bind] in H
          end; [injection H as <-; eexists; reflexivity|]).
  discriminate H.
Qed.

Lemma validate_input_cases {num : Type} {A : Arith num}
  (input_data : PropertyInvestmentInput.t num) :
  _validate_input input_data = Ok tt
  \/ exists msg, _validate_input input_data = Raise (ValueError msg).
Proof.
  destruct (_validate_input input_data) as [[]|e] eqn:E; [left; reflexivity|].
  right. destruct (validate_input_raises _ _ E) as [msg ->].
  exists msg. reflexivity.
Qed.

Lemma float_analyze_raises (s : PropertyInvestmentInput.t float) (e : exn) :
  analyze s = Raise e ->
  (exists msg, e = ValueError msg /\ _validate_input s = Raise e)
  \/ (_validate_input s = Ok tt /\ (e = ZeroDivisionError \/ e = OverflowError)).
Proof.
  intros H.
  destruct (validate_input_cases s) as [Hv|[msg Hv]].
  - right. split; [exact Hv|].
    destruct e as [msg| |]; [|left; reflexivity|right; reflexivity].
    exfalso.
    assert (Hr : _validate_input s = Raise (ValueError msg)).
    { apply (analyze_origin (fun e => exists m, e = ValueError m));
        [| |exact H|eexists; reflexivity].
      - intros x y e E [m ->]. apply float_div_raises in E. discriminate E.
      - intros x n e E [m ->]. apply float_pow_raises in E.
        destruct E; discriminate. }
    congruence.
  - left. exists msg. unfold analyze in H. rewrite Hv in H. cbn [bind] in H.
    injection H as <-. split; [reflexivity|exact Hv].
Qed.

(** What [analyze] raises.  In binary64 an exception of [analyze] is either
    the ValueError of the input validation, unchanged, or, after a passed
    validation, a ZeroDivisionError or an OverflowError: the computation
    that follows the validation raises no ValueError.  In exact arithmetic
    the ValueError of the validation is the only exception there is. *)
Theorem analyze_exceptions :
  (forall (s : PropertyInvestmentInput.t float) (e : exn),
     analyze s = Raise e ->
     (exists msg, e = ValueError msg /\ _validate_input s = Raise e)
     \/ (_validate_input s = Ok tt
         /\ (e = ZeroDivisionError \/ e = OverflowError)))
  /\ (forall (s : PropertyInvestmentInput.t Qc) (e : exn),
        analyze s = Raise e ->
        exists msg, e = ValueError msg /\ _validate_input s = Raise e).
Proof.
  split; [exact float_analyze_raises|].
  intros s e H.
  destruct (validate_input_cases s) as [Hv|[msg Hv]].
  - rewrite (analyze_Ok s Hv) in H. discriminate H.
  - exists msg. rewrite (analyze_invalid s _ Hv) in H. injection H as <-.
    split; [reflexivity|exact Hv].
Qed.

(** ** The mortgage figures *)





(** ** The last projection *)

Lemma last_map_nth_error {A B : Type} (f : A -> B) (l : list A) :
  forall d x,
  nth_error l (List.length l - 1) = Some x -> last (map f l) d = f x.
Proof.
  induction l as [|a l IH]; intros d x H; [discriminate H|].
  destruct l as [|b l].
  - cbn in H. injection H as <-. reflexivity.
  - change (last (map f (a :: b :: l)) d) with (last (map f (b :: l)) d).
    apply IH. cbn [List.length] in H.
    replace (S (S (List.length l)) - 1)%nat with (S (List.length l)) in H by lia.
    cbn [nth_error] in H. cbn [List.length].
    replace (S (List.length l) - 1)%nat with (List.length l) by lia.
    exact H.
Qed.

Lemma last_projection (s : PropertyInvestmentInput.t Qc) :
  _validate_input s = Ok tt ->
  exists p,
    nth_error (PropertyInvestmentResult.yearly_projections (analysis s))
      (Z.to_nat (holding_period_years s) - 1) = Some p
    /\ YearlyProjection.year p = holding_period_years s
    /\ Loop.remaining_balance (final_state s)
       = YearlyProjection.remaining_balance p
    /\ Loop.cumulative_cash_flow (final_state s)
       = YearlyProjection.cumulative_cash_flow p.
Proof.
  intros Hvalid. invariants_of Hvalid.
  pose proof (analysis_projections_length s ltac:(assumption)) as Hlen.
  destruct (nth_error (PropertyInvestmentResult.yearly_projections (analysis s))
              (Z.to_nat (holding_period_years s) - 1)) as [p|] eqn:E.
  - exists p. split; [reflexivity|]. split; [|split].
    + apply analysis_projection_nth in E. destruct E as [b [c ->]].
      rewrite year_projection_year. lia.
    + rewrite final_state_balance. apply last_map_nth_error.
      rewrite Hlen. exact E.
    + unfold final_state at 1. rewrite fold_year_step.
      cbn [Loop.cumulative_cash_flow].
      change (projections_from s _ _ _)
        with (projections_from s (range 1 (holding_period_years s + 1))
                (loan_amount_of s) (- initial_investment_of s)).
      rewrite <- analysis_projections. apply last_map_nth_error.
      rewrite Hlen. exact E.
  - apply nth_error_None in E. lia.
Qed.

(** ** The remaining balance over the years *)

Section Floor.
Variables loan rate outlay : Qc.
Hypothesis Hrate : 0 < rate.
Hypothesis Houtlay : loan * rate < outlay.

(** The replay of a year does not take the balance to minus one outlay or
    below. *)
Lemma month_loop_floor (months : nat) :
  forall balance paid,
  balance <= loan -> - outlay < balance ->
  - outlay < balance - (month_loop months rate outlay balance paid - paid).
Proof.
  induction months as [|months IH]; intros balance paid Hb Hlow.
  - cbn [month_loop]. qc2q. lra.
  - cbn [month_loop]. destruct (le balance (of_int 0)) eqn:E.
    + qc2q. lra.
    + apply le_false_iff in E. rewrite of_int_0 in E.
      pose proof (principal_payment_pos loan rate outlay Hrate Houtlay
                    balance Hb) as Hp.
      exact_ops.
      specialize (IH (balance - (outlay - balance * rate))
                     (paid + (outlay - balance * rate))).
      set (M := month_loop months rate outlay _ _) in *. clearbody M.
      assert (H1 : balance - (outlay - balance * rate) <= loan)
        by (qc2q; lra).
      assert (H2 : - outlay < balance - (outlay - balance * rate))
        by (qc2q; nra).
      specialize (IH H1 H2). qc2q. lra.
Qed.


End Floor.

Section Balances.
Variable s : PropertyInvestmentInput.t Qc.
Hypothesis Hvalid : _validate_input s = Ok tt.

Lemma outlay_covers_interest :
  loan_amount_of s * monthly_rate_of s < total_monthly_mortgage_of s.
Proof.
  destruct (outlay_exceeds_interest s Hvalid) as [H1 H2].
  eapply Qclt_trans; eassumption.
Qed.

Lemma year_projection_bounds (b c : Qc) (y : Z) :
  b <= loan_amount_of s -> - total_monthly_mortgage_of s < b ->
  let p := year_projection s b c y in
  0 <= YearlyProjection.principal_paydown p
  /\ YearlyProjection.remaining_balance p <= b
  /\ - total_monthly_mortgage_of s < YearlyProjection.remaining_balance p.
Proof.
  intros Hb Hlow p.
  pose proof (monthly_rate_pos s Hvalid) as Hr.
  pose proof outlay_covers_interest as Hout.
  assert (Hpd : 0 <= YearlyProjection.principal_paydown p)
    by (apply (paydown_nonneg (loan_amount_of s)); assumption).
  split; [exact Hpd|]. split.
  - subst p. rewrite year_projection_balance. qc2q. lra.
  - subst p. rewrite year_projection_balance.
    cbn [year_projection YearlyProjection.principal_paydown].
    unfold _calculate_yearly_principal_paydown.
    destruct (loan_term_years s <? y)%Z; rewrite lit_0.
    + qc2q. lra.
    + pose proof (month_loop_floor (loan_amount_of s) (monthly_rate_of s)
                    (total_monthly_mortgage_of s) Hr Hout 12 b 0 Hb Hlow) as H.
      set (M := month_loop _ _ _ _ _) in *. clearbody M. qc2q. lra.
Qed.

Lemma projections_le_start (years : list Z) :
  forall b c p,
  b <= loan_amount_of s ->
  In p (projections_from s years b c) ->
  YearlyProjection.remaining_balance p <= b.
Proof.
  pose proof (monthly_rate_pos s Hvalid) as Hr.
  pose proof outlay_covers_interest as Hout.
  induction years as [|y years IH]; intros b c p Hb Hp; [destruct Hp|].
  cbn [projections_from] in Hp.
  assert (H1 : YearlyProjection.remaining_balance (year_projection s b c y) <= b).
  { rewrite year_projection_balance.
    pose proof (paydown_nonneg (loan_amount_of s) (monthly_rate_of s)
                  (total_monthly_mortgage_of s) Hr Hout b y
                  (loan_term_years s) Hb) as Hpd.
    cbn [year_projection YearlyProjection.principal_paydown].
    qc2q. lra. }
  destruct Hp as [<- | Hp]; [exact H1|].
  assert (H3 : YearlyProjection.remaining_balance (year_projection s b c y)
               <= loan_amount_of s) by (qc2q; lra).
  pose proof (IH _ _ _ H3 Hp) as H4. qc2q. lra.
Qed.

Lemma projections_floor (years : list Z) :
  forall b c p,
  b <= loan_amount_of s -> - total_monthly_mortgage_of s < b ->
  In p (projections_from s years b c) ->
  - total_monthly_mortgage_of s < YearlyProjection.remaining_balance p.
Proof.
  induction years as [|y years IH]; intros b c p Hb Hlow Hp; [destruct Hp|].
  cbn [projections_from] in Hp.
  destruct (year_projection_bounds b c y Hb Hlow) as [_ [H1 H2]].
  cbv zeta in H1, H2.
  destruct Hp as [<- | Hp]; [exact H2|].
  assert (H3 : YearlyProjection.remaining_balance (year_projection s b c y)
               <= loan_amount_of s) by (qc2q; lra).
  exact (IH _ _ _ H3 H2 Hp).
Qed.




End Balances.


Lemma consecutive_balances (s : PropertyInvestmentInput.t Qc) :
  _validate_input s = Ok tt ->
  forall i q p,
  nth_error (PropertyInvestmentResult.yearly_projections (analysis s)) i = Some q ->
  nth_error (PropertyInvestmentResult.yearly_projections (analysis s)) (S i) = Some p ->
  YearlyProjection.remaining_balance p <= YearlyProjection.remaining_balance q.
Proof.
  intros Hvalid i q p Hq Hp.
  assert (Hb : YearlyProjection.remaining_balance q <= loan_amount_of s).
  { rewrite analysis_projections in Hq.
    apply (projections_le_start s Hvalid
             (range 1 (holding_period_years s + 1)) (loan_amount_of s)
             (- initial_investment_of s) q (Qcle_refl _)).
    eapply nth_error_In, Hq. }
  rewrite analysis_projections in Hq, Hp.
  destruct (projections_from_succ _ _ _ _ _ _ _ Hq Hp) as [y [_ ->]].
  rewrite year_projection_balance.
  pose proof (paydown_nonneg (loan_amount_of s) (monthly_rate_of s)
                (total_monthly_mortgage_of s) (monthly_rate_pos s Hvalid)
                (outlay_covers_interest s Hvalid)
                (YearlyProjection.remaining_balance q) y
                (loan_term_years s) Hb) as Hpd.
  cbn [year_projection YearlyProjection.principal_paydown].
  qc2q. lra.
Qed.



(** The recorded remaining balance never increases from one year to the
    next, starts at most at the loan amount, and never falls to minus one
    monthly outlay or below: the last payment overshoots by less than one
    outlay. *)
Theorem remaining_balance_range (s : PropertyInvestmentInput.t Qc) :
  _validate_input s = Ok tt ->
  exists res, analyze s = Ok res /\
  let projections := PropertyInvestmentResult.yearly_projections res in
  let outlay :=
    MortgageDetails.monthly_payment (PropertyInvestmentResult.mortgage res) in
  (forall i q p,
     nth_error projections i = Some q ->
     nth_error projections (S i) = Some p ->
     YearlyProjection.remaining_balance p
     <= YearlyProjection.remaining_balance q) /\
  (forall p, In p projections ->
     - outlay < YearlyProjection.remaining_balance p
     /\ YearlyProjection.remaining_balance p
        <= InvestmentSummary.loan_amount (PropertyInvestmentResult.summary res)).
Proof.
  intros Hvalid. exists (analysis s). split; [apply analyze_Ok, Hvalid|].
  cbv zeta. split.
  - apply consecutive_balances, Hvalid.
  - intros p Hp. rewrite analysis_projections in Hp.
    pose proof (loan_amount_pos s Hvalid) as HL.
    pose proof (monthly_rate_pos s Hvalid) as Hr.
    pose proof (outlay_covers_interest s Hvalid) as Hout.
    assert (Hlow : - total_monthly_mortgage_of s < loan_amount_of s)
      by (qc2q; nra).
    split.
    + exact (projections_floor s Hvalid _ _ _ p (Qcle_refl _) Hlow Hp).
    + exact (projections_le_start s Hvalid _ _ _ p (Qcle_refl _) Hp).
Qed.

Lemma remaining_balance_range_witness :
  _validate_input scenario_two_years = Ok tt /\
  exists res, analyze scenario_two_years = Ok res /\
  forall p, In p (PropertyInvestmentResult.yearly_projections res) ->
    - MortgageDetails.monthly_payment (PropertyInvestmentResult.mortgage res)
    < YearlyProjection.remaining_balance p
    /\ YearlyProjection.remaining_balance p
       <= InvestmentSummary.loan_amount (PropertyInvestmentResult.summary res).
Proof.
  split; [vm_compute; reflexivity|].
  destruct (remaining_balance_range scenario_two_years) as [res [H1 [_ H2]]].
  - vm_compute. reflexivity.
  - exists res. split; assumption.
Defined.



(** ** Equity *)

Lemma year_projection_equity (s : PropertyInvestmentInput.t Qc) (b c : Qc) (y : Z) :
  YearlyProjection.total_equity (year_projection s b c y)
  = down_payment s
    + (loan_amount_of s
       - YearlyProjection.remaining_balance (year_projection s b c y)).
Proof. reflexivity. Qed.

Lemma year_projection_net (s : PropertyInvestmentInput.t Qc) (b c : Qc) (y : Z) :
  YearlyProjection.net_cash_flow (year_projection s b c y)
  = YearlyProjection.rental_income (year_projection s b c y)
    - YearlyExpenses.total (YearlyProjection.expenses (year_projection s b c y)).
Proof. reflexivity. Qed.

(** The equity recorded for a year is the down payment plus the paydowns
    recorded so far; it is at least the down payment and never decreases
    from one year to the next. *)
Theorem total_equity_spec (s : PropertyInvestmentInput.t Qc) :
  _validate_input s = Ok tt ->
  exists res, analyze s = Ok res /\
  let projections := PropertyInvestmentResult.yearly_projections res in
  (forall i p,
     nth_error projections i = Some p ->
     YearlyProjection.total_equity p
     = down_payment s
       + sum (map (@YearlyProjection.principal_paydown Qc)
                (firstn (S i) projections))) /\
  (forall p, In p projections ->
     down_payment s <= YearlyProjection.total_equity p) /\
  (forall i q p,
     nth_error projections i = Some q ->
     nth_error projections (S i) = Some p ->
     YearlyProjection.total_equity q <= YearlyProjection.total_equity p).
Proof.
  intros Hvalid. exists (analysis s). split; [apply analyze_Ok, Hvalid|].
  cbv zeta.
  assert (Heq : forall i p,
    nth_error (PropertyInvestmentResult.yearly_projections (analysis s)) i
    = Some p ->
    YearlyProjection.total_equity p
    = down_payment s + (loan_amount_of s - YearlyProjection.remaining_balance p)).
  { intros i p Hp. apply analysis_projection_nth in Hp.
    destruct Hp as [b [c ->]]. apply year_projection_equity. }
  split; [|split].
  - intros i p Hp. rewrite (Heq i p Hp).
    rewrite analysis_projections in *.
    pose proof (paydown_conservation s _ _ _ _ _ Hp) as Hc.
    set (paid := sum _) in *. clearbody paid. qc2q. lra.
  - intros p Hp. destruct (In_nth_error _ _ Hp) as [i Hi].
    rewrite (Heq i p Hi). rewrite analysis_projections in Hp.
    pose proof (projections_le_start s Hvalid _ _ _ p (Qcle_refl _) Hp) as Hle.
    qc2q. lra.
  - intros i q p Hq Hp. rewrite (Heq _ _ Hq), (Heq _ _ Hp).
    pose proof (consecutive_balances s Hvalid i q p Hq Hp) as Hle.
    qc2q. lra.
Qed.

Lemma total_equity_spec_witness :
  _validate_input scenario_one_year = Ok tt /\
  exists res, analyze scenario_one_year = Ok res /\
  forall p, In p (PropertyInvestmentResult.yearly_projections res) ->
    down_payment scenario_one_year <= YearlyProjection.total_equity p.
Proof.
  split; [vm_compute; reflexivity|].
  destruct (total_equity_spec scenario_one_year) as [res [H1 [_ [H2 _]]]].
  - vm_compute. reflexivity.
  - exists res. split; assumption.
Defined.

(** ** The summary and the last projection *)

Lemma sum_map_minus {A : Type} (f g : A -> Qc) (l : list A) :
  sum (map f l) - sum (map g l) = sum (map (fun x => f x - g x) l).
Proof.
  induction l as [|x l IH].
  - cbn [map]. rewrite sum_nil. ring.
  - cbn [map]. rewrite !sum_cons, <- IH. ring.
Qed.

(** The summary agrees with the record of the last year: the total cash
    flow is the sum of the yearly net cash flows and exceeds the last
    cumulative cash flow by the upfront investment, the final equity is
    the equity of the last year, and the net profit is the last cumulative
    cash flow plus the last equity. *)
Theorem summary_matches_last_year (s : PropertyInvestmentInput.t Qc) :
  _validate_input s = Ok tt ->
  exists res p, analyze s = Ok res /\
  let projections := PropertyInvestmentResult.yearly_projections res in
  let sm := PropertyInvestmentResult.summary res in
  nth_error projections (Z.to_nat (holding_period_years s) - 1) = Some p /\
  YearlyProjection.year p = holding_period_years s /\
  InvestmentSummary.total_cash_flow sm
  = sum (map (@YearlyProjection.net_cash_flow Qc) projections) /\
  YearlyProjection.cumulative_cash_flow p
  = InvestmentSummary.total_cash_flow sm
    - InvestmentSummary.initial_investment sm /\
  InvestmentSummary.final_equity sm = YearlyProjection.total_equity p /\
  InvestmentSummary.net_profit sm
  = YearlyProjection.cumulative_cash_flow p + YearlyProjection.total_equity p.
Proof.
  intros Hvalid.
  destruct (last_projection s Hvalid) as [p [Hp [Hy [Hb Hc]]]].
  exists (analysis s), p. split; [apply analyze_Ok, Hvalid|]. cbv zeta.
  split; [exact Hp|]. split; [exact Hy|].
  invariants_of Hvalid.
  pose proof (analysis_projections_length s ltac:(assumption)) as Hlen.
  assert (Htcf : InvestmentSummary.total_cash_flow
                   (PropertyInvestmentResult.summary (analysis s))
                 = sum (map (@YearlyProjection.net_cash_flow Qc)
                          (PropertyInvestmentResult.yearly_projections
                             (analysis s)))).
  { cbn [analysis PropertyInvestmentResult.summary
         InvestmentSummary.total_cash_flow
         PropertyInvestmentResult.yearly_projections].
    rewrite sum_map_minus. f_equal. apply map_ext_in.
    intros q Hq. apply In_nth_error in Hq. destruct Hq as [i Hi].
    change (Loop.yearly_projections (final_state s))
      with (PropertyInvestmentResult.yearly_projections (analysis s)) in Hi.
    apply analysis_projection_nth in Hi. destruct Hi as [b [c ->]].
    symmetry. apply year_projection_net. }
  assert (Hcum : YearlyProjection.cumulative_cash_flow p
                 = - initial_investment_of s
                   + sum (map (@YearlyProjection.net_cash_flow Qc)
                            (PropertyInvestmentResult.yearly_projections
                               (analysis s)))).
  { pose proof Hp as Hp'. rewrite analysis_projections in Hp'.
    rewrite (cumulative_sum s _ _ _ _ _ Hp').
    rewrite <- analysis_projections.
    rewrite firstn_all2 by lia. reflexivity. }
  assert (Heq : YearlyProjection.total_equity p
                = down_payment s
                  + (loan_amount_of s - YearlyProjection.remaining_balance p)).
  { pose proof Hp as Hp'. apply analysis_projection_nth in Hp'.
    destruct Hp' as [b [c ->]]. apply year_projection_equity. }
  split; [exact Htcf|].
  assert (Hfe : InvestmentSummary.final_equity
                  (PropertyInvestmentResult.summary (analysis s))
                = YearlyProjection.total_equity p).
  { rewrite Heq.
    cbn [analysis PropertyInvestmentResult.summary
         InvestmentSummary.final_equity].
    rewrite Hb. reflexivity. }
  split; [|split].
  - rewrite Hcum, Htcf.
    change (InvestmentSummary.initial_investment
              (PropertyInvestmentResult.summary (analysis s)))
      with (initial_investment_of s).
    ring.
  - exact Hfe.
  - change (InvestmentSummary.net_profit
              (PropertyInvestmentResult.summary (analysis s)))
      with (InvestmentSummary.total_cash_flow
              (PropertyInvestmentResult.summary (analysis s))
            + InvestmentSummary.final_equity
                (PropertyInvestmentResult.summary (analysis s))
            - initial_investment_of s).
    rewrite Hfe, Hcum, Htcf. ring.
Qed.

Lemma summary_matches_last_year_witness :
  _validate_input scenario_one_year = Ok tt /\
  exists res p, analyze scenario_one_year = Ok res /\
  InvestmentSummary.net_profit (PropertyInvestmentResult.summary res)
  = YearlyProjection.cumulative_cash_flow p + YearlyProjection.total_equity p.
Proof.
  split; [vm_compute; reflexivity|].
  destruct (summary_matches_last_year scenario_one_year)
    as [res [p [H1 [_ [_ [_ [_ [_ H2]]]]]]]].
  - vm_compute. reflexivity.
  - exists res, p. split; assumption.
Defined.

(** ** Rent from year to year *)

Lemma year_projection_rent (s : PropertyInvestmentInput.t Qc) (b c : Qc) (y : Z) :
  YearlyProjection.rental_income (year_projection s b c y)
  = monthly_rent s
    * (1 + rent_increase_annual s / lit 100.0) ^ Z.to_nat (y - 1)
    * (1 - vacancy_rate s / lit 100.0) * of_int 12.
Proof. reflexivity. Qed.

Lemma percent (x : Qc) : x / lit 100.0 = x * lit 0.01.
Proof.
  unfold Qcdiv. apply f_equal. apply Qc_is_canon. reflexivity.
Qed.

Section Rent.
Variable s : PropertyInvestmentInput.t Qc.
Hypothesis Hvalid : _validate_input s = Ok tt.

Lemma growth_factor_pos : 0 < 1 + rent_increase_annual s / lit 100.0.
Proof.
  invariants_of Hvalid. rewrite percent. exact_ops. qc2q.
  unfold inject_Z in *. lra.
Qed.

Lemma occupancy_nonneg : 0 <= 1 - vacancy_rate s / lit 100.0.
Proof.
  invariants_of Hvalid. rewrite percent. exact_ops. qc2q.
  unfold inject_Z in *. lra.
Qed.

Lemma rental_income_nonneg (b c : Qc) (y : Z) :
  0 <= YearlyProjection.rental_income (year_projection s b c y).
Proof.
  rewrite year_projection_rent.
  pose proof (Qcpower_gt_0 _ (Z.to_nat (y - 1)) growth_factor_pos) as HX.
  pose proof occupancy_nonneg as Ho. invariants_of Hvalid.
  set (X := _ ^ _) in *. set (o := 1 - _) in *. clearbody X o.
  assert (Htwelve : 0 < of_int 12) by reflexivity.
  set (m := of_int 12) in *. clearbody m.
  assert (Ha : 0 <= monthly_rent s * X) by (qc2q; nra).
  set (a := monthly_rent s * X) in *. clearbody a.
  assert (Hb : 0 <= a * o) by (qc2q; nra).
  set (ao := a * o) in *. clearbody ao. qc2q. nra.
Qed.

End Rent.

(** The rental income is never negative and compounds: the income of a
    year is that of the year before times [1 + rent_increase_annual / 100].
    With a positive rent, a positive growth and a vacancy rate below 100
    it increases strictly from year to year; with a zero growth it is the
    same in every year. *)
Theorem rental_income_growth (s : PropertyInvestmentInput.t Qc) :
  _validate_input s = Ok tt ->
  exists res, analyze s = Ok res /\
  let projections := PropertyInvestmentResult.yearly_projections res in
  let growth := 1 + rent_increase_annual s / lit 100.0 in
  (forall p, In p projections -> 0 <= YearlyProjection.rental_income p) /\
  (forall i q p,
     nth_error projections i = Some q ->
     nth_error projections (S i) = Some p ->
     YearlyProjection.rental_income p
     = YearlyProjection.rental_income q * growth) /\
  (0 < rent_increase_annual s -> 0 < monthly_rent s ->
   vacancy_rate s < of_int 100 ->
   forall i q p,
     nth_error projections i = Some q ->
     nth_error projections (S i) = Some p ->
     YearlyProjection.rental_income q < YearlyProjection.rental_income p) /\
  (rent_increase_annual s = 0 ->
   forall p, In p projections ->
     YearlyProjection.rental_income p
     = monthly_rent s * (1 - vacancy_rate s / lit 100.0) * of_int 12).
Proof.
  intros Hvalid. exists (analysis s). split; [apply analyze_Ok, Hvalid|].
  cbv zeta.
  assert (Hstep : forall i q p,
    nth_error (PropertyInvestmentResult.yearly_projections (analysis s)) i
    = Some q ->
    nth_error (PropertyInvestmentResult.yearly_projections (analysis s)) (S i)
    = Some p ->
    YearlyProjection.rental_income p
    = YearlyProjection.rental_income q
      * (1 + rent_increase_annual s / lit 100.0)).
  { intros i q p Hq Hp.
    apply analysis_projection_nth in Hq, Hp.
    destruct Hq as [b [c ->]]. destruct Hp as [b' [c' ->]].
    rewrite !year_projection_rent.
    replace (Z.to_nat (Z.of_nat (S (S i)) - 1))
      with (S (Z.to_nat (Z.of_nat (S i) - 1))) by lia.
    rewrite Qcpower_S. ring. }
  split; [|split; [|split]].
  - intros p Hp. apply In_nth_error in Hp. destruct Hp as [i Hi].
    apply analysis_projection_nth in Hi. destruct Hi as [b [c ->]].
    apply rental_income_nonneg, Hvalid.
  - exact Hstep.
  - intros Hg Hrent Hv i q p Hq Hp. rewrite (Hstep i q p Hq Hp).
    assert (Hpos : 0 < YearlyProjection.rental_income q).
    { apply analysis_projection_nth in Hq. destruct Hq as [b [c ->]].
      rewrite year_projection_rent.
      pose proof (Qcpower_gt_0 _ (Z.to_nat (Z.of_nat (S i) - 1))
                    (growth_factor_pos s Hvalid)) as HX.
      assert (Ho : 0 < 1 - vacancy_rate s / lit 100.0).
      { rewrite percent. revert Hv. exact_ops. intros Hv. qc2q.
        unfold inject_Z in *. lra. }
      set (X := _ ^ _) in *. set (o := 1 - _) in *. clearbody X o.
      assert (Htwelve : 0 < of_int 12) by reflexivity.
      set (m := of_int 12) in *. clearbody m.
      assert (Ha : 0 < monthly_rent s * X) by (qc2q; nra).
      set (a := monthly_rent s * X) in *. clearbody a.
      assert (Hb : 0 < a * o) by (qc2q; nra).
      set (ao := a * o) in *. clearbody ao. qc2q. nra. }
    assert (Hgr : 1 < 1 + rent_increase_annual s / lit 100.0).
    { rewrite percent. exact_ops. qc2q. lra. }
    set (R := YearlyProjection.rental_income q) in *.
    set (G := 1 + _) in *. clearbody R G. qc2q. nra.
  - intros Hg p Hp. apply In_nth_error in Hp. destruct Hp as [i Hi].
    apply analysis_projection_nth in Hi. destruct Hi as [b [c ->]].
    rewrite year_projection_rent, Hg.
    replace (1 + 0 / lit 100.0) with 1 by (rewrite percent; ring).
    rewrite Qcpower_1. ring.
Qed.

Lemma rental_income_growth_witness :
  _validate_input scenario_three_years = Ok tt /\
  exists res, analyze scenario_three_years = Ok res /\
  forall p, In p (PropertyInvestmentResult.yearly_projections res) ->
    YearlyProjection.rental_income p
    = monthly_rent scenario_three_years
      * (1 - vacancy_rate scenario_three_years / lit 100.0) * of_int 12.
Proof.
  split; [vm_compute; reflexivity|].
  destruct (rental_income_growth scenario_three_years)
    as [res [H1 [_ [_ [_ H2]]]]].
  - vm_compute. reflexivity.
  - exists res. split; [exact H1|]. apply H2. reflexivity.
Defined.

(** ** When the periodic payment raises *)





Lemma calculate_monthly_payment_raises_example :
  _calculate_monthly_payment (of_int 1200) (of_int (-2)) 2
  = Raise ZeroDivisionError.
Proof. reflexivity. Qed.

(** ** The vacancy rate *)

Section Vacancy.
Variable s : PropertyInvestmentInput.t Qc.
Variable v : Qc.
Hypothesis Hvalid : _validate_input s = Ok tt.
Hypothesis Hhigher : vacancy_rate s <= v.

Lemma year_projection_vacancy (b c c' : Qc) (y : Z) :
  c' <= c ->
  let p := year_projection s b c y in
  let p' := year_projection (with_vacancy_rate s v) b c' y in
  YearlyProjection.year p' = YearlyProjection.year p
  /\ YearlyProjection.expenses p' = YearlyProjection.expenses p
  /\ YearlyProjection.principal_paydown p' = YearlyProjection.principal_paydown p
  /\ YearlyProjection.remaining_balance p' = YearlyProjection.remaining_balance p
  /\ YearlyProjection.total_equity p' = YearlyProjection.total_equity p
  /\ YearlyProjection.rental_income p' <= YearlyProjection.rental_income p
  /\ YearlyProjection.net_cash_flow p' <= YearlyProjection.net_cash_flow p
  /\ YearlyProjection.cumulative_cash_flow p'
     <= YearlyProjection.cumulative_cash_flow p.
Proof.
  intros Hc p p'.
  assert (Hrent : YearlyProjection.rental_income p'
                  <= YearlyProjection.rental_income p).
  { subst p p'. rewrite !year_projection_rent.
    cbn [with_vacancy_rate monthly_rent rent_increase_annual vacancy_rate].
    pose proof (Qcpower_gt_0 _ (Z.to_nat (y - 1)) (growth_factor_pos s Hvalid))
      as HX.
    rewrite !percent. invariants_of Hvalid.
    set (X := _ ^ _) in *. clearbody X.
    assert (Htwelve : 0 < of_int 12) by reflexivity.
    set (m := of_int 12) in *. clearbody m.
    assert (Ha : 0 <= monthly_rent s * X) by (qc2q; nra).
    set (a := monthly_rent s * X) in *. clearbody a.
    assert (Hb : 0 <= a * m) by (qc2q; nra).
    replace (a * (1 - v * lit 0.01) * m)
      with (a * m - a * m * (v * lit 0.01)) by ring.
    replace (a * (1 - vacancy_rate s * lit 0.01) * m)
      with (a * m - a * m * (vacancy_rate s * lit 0.01)) by ring.
    set (am := a * m) in *. clearbody am.
    exact_ops. qc2q. nra. }
  assert (Hnet : YearlyProjection.net_cash_flow p'
                 <= YearlyProjection.net_cash_flow p).
  { subst p p'. rewrite !year_projection_net.
    change (YearlyExpenses.total
              (YearlyProjection.expenses
                 (year_projection (with_vacancy_rate s v) b c' y)))
      with (YearlyExpenses.total
              (YearlyProjection.expenses (year_projection s b c y))).
    set (E := YearlyExpenses.total _) in *. clearbody E.
    set (R := YearlyProjection.rental_income _) in *.
    set (R' := YearlyProjection.rental_income _) in Hrent |- *.
    clearbody R R'. qc2q. lra. }
  repeat split; try reflexivity; try assumption.
  subst p p'. rewrite !year_projection_cumulative.
  set (N := YearlyProjection.net_cash_flow _) in *.
  set (N' := YearlyProjection.net_cash_flow _) in Hnet |- *.
  clearbody N N'. qc2q. lra.
Qed.

Lemma projections_vacancy (years : list Z) :
  forall b c c' i p p',
  c' <= c ->
  nth_error (projections_from s years b c) i = Some p ->
  nth_error (projections_from (with_vacancy_rate s v) years b c') i = Some p' ->
  YearlyProjection.year p' = YearlyProjection.year p
  /\ YearlyProjection.expenses p' = YearlyProjection.expenses p
  /\ YearlyProjection.principal_paydown p' = YearlyProjection.principal_paydown p
  /\ YearlyProjection.remaining_balance p' = YearlyProjection.remaining_balance p
  /\ YearlyProjection.total_equity p' = YearlyProjection.total_equity p
  /\ YearlyProjection.rental_income p' <= YearlyProjection.rental_income p
  /\ YearlyProjection.net_cash_flow p' <= YearlyProjection.net_cash_flow p
  /\ YearlyProjection.cumulative_cash_flow p'
     <= YearlyProjection.cumulative_cash_flow p.
Proof.
  induction years as [|y years IH]; intros b c c' i p p' Hc Hp Hp'.
  - destruct i; discriminate Hp.
  - cbn [projections_from] in Hp, Hp'.
    pose proof (year_projection_vacancy b c c' y Hc) as H0. cbv zeta in H0.
    destruct i as [|i].
    + cbn in Hp, Hp'. injection Hp as <-. injection Hp' as <-. exact H0.
    + cbn [nth_error] in Hp, Hp'.
      destruct H0 as [_ [_ [_ [Hb [_ [_ [_ Hcum]]]]]]].
      rewrite Hb in Hp'. exact (IH _ _ _ _ _ _ Hcum Hp Hp').
Qed.

End Vacancy.

(** Raising the vacancy rate of a scenario, everything else unchanged,
    lowers or keeps the rental income, the net cash flow and the
    cumulative cash flow of every year and leaves the mortgage figures,
    the expenses (the management fee is charged on the rent before
    vacancy), the paydown, the remaining balance and the equity as they
    were. *)
Theorem vacancy_rate_effect (s : PropertyInvestmentInput.t Qc) (v : Qc) :
  _validate_input s = Ok tt ->
  _validate_input (with_vacancy_rate s v) = Ok tt ->
  vacancy_rate s <= v ->
  exists res res',
    analyze s = Ok res /\ analyze (with_vacancy_rate s v) = Ok res' /\
    PropertyInvestmentResult.mortgage res' = PropertyInvestmentResult.mortgage res /\
    forall i p p',
      nth_error (PropertyInvestmentResult.yearly_projections res) i = Some p ->
      nth_error (PropertyInvestmentResult.yearly_projections res') i = Some p' ->
      YearlyProjection.year p' = YearlyProjection.year p
      /\ YearlyProjection.expenses p' = YearlyProjection.expenses p
      /\ YearlyProjection.principal_paydown p' = YearlyProjection.principal_paydown p
      /\ YearlyProjection.remaining_balance p' = YearlyProjection.remaining_balance p
      /\ YearlyProjection.total_equity p' = YearlyProjection.total_equity p
      /\ YearlyProjection.rental_income p' <= YearlyProjection.rental_income p
      /\ YearlyProjection.net_cash_flow p' <= YearlyProjection.net_cash_flow p
      /\ YearlyProjection.cumulative_cash_flow p'
         <= YearlyProjection.cumulative_cash_flow p.
Proof.
  intros Hvalid Hvalid' Hv.
  exists (analysis s), (analysis (with_vacancy_rate s v)).
  split; [apply analyze_Ok, Hvalid|]. split; [apply analyze_Ok, Hvalid'|].
  split; [reflexivity|].
  intros i p p' Hp Hp'. rewrite analysis_projections in Hp, Hp'.
  exact (projections_vacancy s v Hvalid Hv _ _ _ _ _ _ _ (Qcle_refl _) Hp Hp').
Qed.

Lemma vacancy_rate_effect_witness :
  _validate_input scenario_one_year = Ok tt /\
  exists res res',
    analyze scenario_one_year = Ok res /\
    analyze (with_vacancy_rate scenario_one_year (of_int 10)) = Ok res' /\
    PropertyInvestmentResult.mortgage res' = PropertyInvestmentResult.mortgage res.
Proof.
  split; [vm_compute; reflexivity|].
  destruct (vacancy_rate_effect scenario_one_year (of_int 10))
    as [res [res' [H1 [H2 [H3 _]]]]].
  - vm_compute. reflexivity.
  - vm_compute. reflexivity.
  - vm_compute. discriminate.
  - exists res, res'. repeat split; assumption.
Defined.

(** ** The break-even line of the report *)

Section Marker.
Context {num : Type} {A : Arith num}.

Lemma year_loop_marker (input_data : PropertyInvestmentInput.t num)
  (loan_amount monthly_rate total_monthly_mortgage : num) (years : list Z) :
  forall st st' y,
  year_loop input_data loan_amount monthly_rate total_monthly_mortgage years st
  = Ok st' ->
  Loop.break_even_year st' = Some y ->
  Loop.break_even_year st = Some y \/ In y years.
Proof.
  induction years as [|year years IH]; intros st st' y H Hy.
  - cbn in H. injection H as <-. left. exact Hy.
  - cbn [year_loop] in H.
    destruct (year_body input_data loan_amount monthly_rate
                total_monthly_mortgage st year) as [st1|e] eqn:E;
      cbn [bind] in H; [|discriminate H].
    destruct (IH _ _ _ H Hy) as [H1|H1]; [|right; right; exact H1].
    pose proof (year_body_marker _ _ _ _ _ _ _ E) as Hm.
    destruct (Loop.break_even_year st) as [y0|].
    + left. congruence.
    + right. left. rewrite H1 in Hm.
      destruct (le (of_int 0) (Loop.cumulative_cash_flow st1));
        congruence.
Qed.

Lemma range_In (lo hi y : Z) : In y (range lo hi) -> (lo <= y < hi)%Z.
Proof.
  unfold range. rewrite in_map_iff. intros [i [<- Hi]].
  apply in_seq in Hi. lia.
Qed.

Lemma analyze_marker (input_data : PropertyInvestmentInput.t num)
  (res : PropertyInvestmentResult.t num) (y : Z) :
  analyze input_data = Ok res ->
  InvestmentSummary.break_even_year (PropertyInvestmentResult.summary res)
  = Some y ->
  (1 <= y <= holding_period_years input_data)%Z.
Proof.
  unfold analyze. intros H.
  destruct (_validate_input input_data) as [[]|e]; cbn [bind] in H;
    [|discriminate H].
  repeat match type of H with
         | bind ?m _ = _ =>
           let E := fresh "E" in
           destruct m eqn:E; cbn [bind] in H; [|discriminate H]
         end.
  injection H as <-.
  cbn [PropertyInvestmentResult.summary InvestmentSummary.break_even_year].
  intros Hy.
  match goal with
  | E : year_loop _ _ _ _ _ _ = Ok _ |- _ =>
    destruct (year_loop_marker _ _ _ _ _ _ _ _ E Hy) as [H0|H0]
  end.
  - discriminate H0.
  - apply range_In in H0. lia.
Qed.

(** The break-even line of the table shows the break-even year of the
    summary whenever [analyze] has set one, and that year is one of the
    years 1 .. holding period: the zero that the truth test of the line
    would take for an unset year is never recorded.  The line reads
    "Not reached in N years" exactly when the summary has no break-even
    year. *)
Theorem break_even_line_spec (input_data : PropertyInvestmentInput.t num)
  (res : PropertyInvestmentResult.t num) :
  analyze input_data = Ok res ->
  match InvestmentSummary.break_even_year
          (PropertyInvestmentResult.summary res) with
  | Some y =>
    (1 <= y <= holding_period_years input_data)%Z
    /\ break_even_line res = ("Break-even Year:       " ++ str y)%string
  | None =>
    break_even_line res
    = ("Break-even Year:       Not reached in "
       ++ str (holding_period_years input_data) ++ " years")%string
  end.
Proof.
  intros H.
  destruct (InvestmentSummary.break_even_year
              (PropertyInvestmentResult.summary res)) as [y|] eqn:Hy.
  - pose proof (analyze_marker _ _ _ H Hy) as Hrange.
    split; [exact Hrange|].
    unfold break_even_line. cbv zeta. rewrite Hy. cbn [truthy str_optional].
    destruct (Z.eqb_spec y 0) as [->|_]; [lia|]. reflexivity.
  - unfold break_even_line. cbv zeta. rewrite Hy. cbn [truthy].
    rewrite (analyze_input _ _ H). reflexivity.
Qed.

End Marker.

Lemma break_even_line_spec_witness :
  exists res,
    analyze Binary64.scenario_reference = Ok res
    /\ break_even_line res
       = "Break-even Year:       Not reached in 20 years"%string.
Proof.
  destruct (analyze Binary64.scenario_reference) as [res|e] eqn:E.
  - exists res. split; [reflexivity|].
    pose proof (break_even_line_spec _ _ E) as H.
    assert (Hm : InvestmentSummary.break_even_year
                   (PropertyInvestmentResult.summary res) = None).
    { vm_compute in E. injection E as <-. reflexivity. }
    rewrite Hm in H. exact H.
  - vm_compute in E. discriminate E.
Defined.

(** ** The command line *)




(** The arguments of the reference scenario end with status 0. *)
Lemma main_reference : exit_status (main args_reference) = 0%Z.
Proof. vm_compute. reflexivity. Qed.
